(** * OpenClaw-Mobile: gateway, browser sessions and search pipeline

  A shallow embedding of the TypeScript sources

    - [src/security/external-content.ts]  (content guard)
    - [src/agents/tools/web-shared.ts]    (cache, key normalisation)
    - [src/agents/tools/web-search.ts]    (SearXNG + Jina pipeline)
    - [src/browser/service.ts]            (browser session manager)
    - [src/gateway/server.ts]             (WebSocket message handler)

  followed by the properties of the specification that are stated about
  them.  The first part of the file holds the model, the second part the
  lemmas. *)

From Stdlib Require Import ZArith NArith List Lia Bool Ascii DecimalString.
From Stdlib Require Import QArith Qround Qminmax.
From stdpp Require Import gmap strings list.

Local Open Scope Z_scope.

(* ===================================================================== *)
(** * Part I: the model                                                   *)
(* ===================================================================== *)

(** ** JavaScript strings and arrays

  A JavaScript string is a sequence of UTF-16 code units; [length],
  [slice], [lastIndexOf] and regular expressions without the [u] flag
  all work on code units.  A code unit is an [N]; the model never relies
  on the bound [< 65536]. *)

Module JS.

Abbreviation jsstring := (list N).

(** An ASCII literal of the source, as code units. *)
Fixpoint js (s : string) : jsstring :=
  match s with
  | EmptyString => []
  | String a r => N_of_ascii a :: js r
  end.

(** The line feed of a [\n] escape or of a template literal's line
    break. *)
Definition LF : N := 10%N.
Definition SPACE : N := 32%N.
Definition UNDERSCORE : N := 95%N.

Definition len {A} (l : list A) : Z := Z.of_nat (length l).

(** Truthiness of a string: only the empty string is falsy. *)
Definition truthy (s : jsstring) : bool :=
  match s with [] => false | _ => true end.

(** [String.prototype.slice] and [Array.prototype.slice] resolve a
    relative index the same way: a negative index counts from the end. *)
Definition rel_index (length_ i : Z) : Z :=
  if i <? 0 then Z.max (length_ + i) 0 else Z.min i length_.

Definition slice {A} (l : list A) (start end_ : Z) : list A :=
  let from := rel_index (len l) start in
  let to := rel_index (len l) end_ in
  take (Z.to_nat (to - from)) (drop (Z.to_nat from) l).

(** [s.lastIndexOf(c)] for a one-unit search string: the greatest index
    holding [c], or [-1]. *)
Fixpoint lastIndexOf_from (c : N) (s : jsstring) (i acc : Z) : Z :=
  match s with
  | [] => acc
  | x :: r => lastIndexOf_from c r (i + 1) (if N.eqb x c then i else acc)
  end.

Definition lastIndexOf (c : N) (s : jsstring) : Z :=
  lastIndexOf_from c s 0 (-1).

(** The class [\s] of regular expressions, which is also what [trim]
    strips: WhiteSpace and LineTerminator code points. *)
Definition is_space (c : N) : bool :=
  ((9 <=? c) && (c <=? 13) || (c =? 32) || (c =? 160) || (c =? 5760)
   || (8192 <=? c) && (c <=? 8202) || (c =? 8232) || (c =? 8233)
   || (c =? 8239) || (c =? 8287) || (c =? 12288) || (c =? 65279))%N.

Fixpoint trimStart (s : jsstring) : jsstring :=
  match s with
  | [] => []
  | c :: r => if is_space c then trimStart r else s
  end.

Fixpoint trimEnd (s : jsstring) : jsstring :=
  match s with
  | [] => []
  | c :: r =>
      match trimEnd r with
      | [] => if is_space c then [] else [c]
      | t => c :: t
      end
  end.

Definition trim (s : jsstring) : jsstring := trimEnd (trimStart s).

(** [s.replace(/\s+/g, rep)]: every maximal run of white space becomes
    one copy of [rep].  [in_run] tells that the previous unit was white
    space. *)
Fixpoint replace_space_runs (rep : jsstring) (in_run : bool) (s : jsstring)
  : jsstring :=
  match s with
  | [] => []
  | c :: r =>
      if is_space c
      then (if in_run then [] else rep) ++ replace_space_runs rep true r
      else c :: replace_space_runs rep false r
  end.

(** [s.replace(/[^...]/g, rep)] for a negated class given by its
    complement [keep]: every unit outside the class is replaced. *)
Definition replace_outside (keep : N -> bool) (rep : jsstring) (s : jsstring)
  : jsstring :=
  flat_map (fun c => if keep c then [c] else rep) s.

End JS.

(** ** Content guard: [src/security/external-content.ts] *)

Module ExternalContent.
Import JS.

Definition sourceLabel (source : option jsstring) : jsstring :=
  match source with
  | Some s => if truthy s then js " [Source: " ++ s ++ js "]" else []
  | None => []
  end.

Definition EXTERNAL_OPEN : jsstring := js "<!-- EXTERNAL_CONTENT".
Definition COMMENT_CLOSE : jsstring := js " -->".
Definition EXTERNAL_END : jsstring := js "<!-- END_EXTERNAL_CONTENT -->".

Definition wrapWebContent (content : jsstring) (source : option jsstring)
  : jsstring :=
  if negb (truthy content) then []
  else EXTERNAL_OPEN ++ sourceLabel source ++ COMMENT_CLOSE
         ++ [LF] ++ content ++ [LF] ++ EXTERNAL_END.

(** The [options] argument of [truncateContent]; every field is
    optional, and so is the argument itself. *)
Record TruncateOptions := {
  preserveWords : option bool;
  suffix : option jsstring
}.

Definition DEFAULT_SUFFIX : jsstring := LF :: js "...[content truncated]".

(** [options?.suffix ?? "\n...[content truncated]"] *)
Definition suffix_of (options : option TruncateOptions) : jsstring :=
  match options with
  | Some o => match suffix o with Some s => s | None => DEFAULT_SUFFIX end
  | None => DEFAULT_SUFFIX
  end.

(** [options?.preserveWords !== false] *)
Definition preserveWords_of (options : option TruncateOptions) : bool :=
  match options with
  | Some o => match preserveWords o with Some false => false | _ => true end
  | None => true
  end.

(** [maxLength] is an integer-valued number.  The source compares
    [lastSpace > availableLength * 0.8] in double precision; for the
    integers involved that is the exact comparison
    [5 * lastSpace > 4 * availableLength]. *)
Definition truncateContent (content : jsstring) (maxLength : Z)
    (options : option TruncateOptions) : jsstring :=
  if negb (truthy content) || (len content <=? maxLength) then content
  else
    let suffix := suffix_of options in
    let availableLength := maxLength - len suffix in
    if availableLength <=? 0 then slice content 0 maxLength
    else if preserveWords_of options then
      let truncated := slice content 0 availableLength in
      let lastSpace := lastIndexOf SPACE truncated in
      let truncated :=
        if 4 * availableLength <? 5 * lastSpace
        then slice truncated 0 lastSpace else truncated in
      truncated ++ suffix
    else slice content 0 availableLength ++ suffix.

End ExternalContent.

(** ** Cache and key normalisation: [src/agents/tools/web-shared.ts] *)

Module WebShared.
Import JS.

Record CacheEntry (T : Type) := mkEntry { value : T; timestamp : Z }.
Arguments mkEntry {T}.
Arguments value {T}.
Arguments timestamp {T}.

(** A cleanup scheduled by [setTimeout] in [writeCache]: the callback
    closes over [key] and [ttlMs] and is due [ttlMs] after the write. *)
Record Timer := mkTimer { due : Z; timer_key : jsstring; timer_ttl : Z }.

(** The [Map] behind a cache, with the cleanups pending on it. *)
Record Cache (T : Type) := mkCache {
  entries : gmap jsstring (CacheEntry T);
  timers : list Timer
}.
Arguments mkCache {T}.
Arguments entries {T}.
Arguments timers {T}.

Definition readCache {T} (cache : gmap jsstring (CacheEntry T))
    (key : jsstring) : option (CacheEntry T) :=
  match cache !! key with
  | None => None
  | Some entry => Some entry
  end.

(** [writeCache] at clock value [now] (the value [Date.now()] returns). *)
Definition writeCache {T} (now : Z) (cache : Cache T) (key : jsstring)
    (v : T) (ttlMs : Z) : Cache T :=
  {| entries := <[key := mkEntry v now]> (entries cache);
     timers := timers cache ++ [mkTimer (now + ttlMs) key ttlMs] |}.

(** The body of the cleanup callback, run at clock value [now]. *)
Definition cleanup {T} (now : Z) (key : jsstring) (ttlMs : Z)
    (cache : gmap jsstring (CacheEntry T)) : gmap jsstring (CacheEntry T) :=
  match cache !! key with
  | Some entry =>
      if ttlMs <=? now - timestamp entry then delete key cache else cache
  | None => cache
  end.

(** One turn of the timer phase at clock value [now]: every cleanup that is
    due runs, in scheduling order, and leaves the pending list. *)
Definition run_due_timers {T} (now : Z) (cache : Cache T) : Cache T :=
  {| entries :=
       foldl (fun m t => cleanup now (timer_key t) (timer_ttl t) m)
             (entries cache)
             (filter (fun t => due t <= now) (timers cache));
     timers := filter (fun t => now < due t) (timers cache) |}.

Definition isCacheValid {T} (now : Z) (entry : option (CacheEntry T))
    (ttlMs : Z) : bool :=
  match entry with
  | None => false
  | Some e => now - timestamp e <? ttlMs
  end.

Definition clearCache {T} (cache : gmap jsstring (CacheEntry T))
  : gmap jsstring (CacheEntry T) := ∅.

(** The class [[a-z0-9_-]]. *)
Definition key_char (c : N) : bool :=
  ((97 <=? c) && (c <=? 122) || (48 <=? c) && (c <=? 57)
   || (c =? 95) || (c =? 45))%N.

(** [String.prototype.toLowerCase] follows the Unicode case mapping, which
    the model takes as a parameter. *)
Definition normalizeCacheKey (toLowerCase : jsstring -> jsstring)
    (key : jsstring) : jsstring :=
  slice
    (replace_outside key_char [UNDERSCORE]
       (replace_space_runs [UNDERSCORE] false
          (trim (toLowerCase key))))
    0 256.

(** The ASCII part of the case mapping: [A-Z] to [a-z], the rest
    unchanged. *)
Definition ascii_toLowerCase (s : jsstring) : jsstring :=
  map (fun c => if ((65 <=? c) && (c <=? 90))%N then (c + 32)%N else c) s.

(** Two strings are variants up to white space when one is obtained from
    the other by replacing runs of white space with other non-empty runs
    of white space, anywhere including both ends. *)
Inductive space_variant : jsstring -> jsstring -> Prop :=
| sv_nil : space_variant [] []
| sv_unit c a b :
    is_space c = false -> space_variant a b ->
    space_variant (c :: a) (c :: b)
| sv_run r1 r2 a b :
    r1 <> [] -> r2 <> [] ->
    forallb is_space r1 = true -> forallb is_space r2 = true ->
    space_variant a b -> space_variant (r1 ++ a) (r2 ++ b).

(** Strings made of the units of [[a-z0-9_-]] only. *)
Definition key_string (s : jsstring) : Prop :=
  Forall (fun c => key_char c = true) s.

End WebShared.

(** ** Search pipeline: [src/agents/tools/web-search.ts] *)

Module WebSearch.
Import JS WebShared ExternalContent.

Definition SEARXNG_INSTANCES : list jsstring :=
  [ js "https://searx.be";
    js "https://searx.dresden.network";
    js "https://search.sapti.me";
    js "https://searx.tiekoetter.com";
    js "https://searx.fmac.xyz";
    js "https://searx.nixnet.services";
    js "https://searx.prvcy.eu";
    js "https://search.bus-hit.me" ].

Definition JINA_READER_URL : jsstring := js "https://r.jina.ai/http://".
Definition JINA_READER_HTTPS_URL : jsstring := js "https://r.jina.ai/".
Definition MAX_CONTENT_LENGTH : Z := 5000.
Definition DEFAULT_SEARCH_COUNT : Z := 5.
Definition MAX_SEARCH_COUNT : Z := 10.
Definition TRUNCATION_MARKER : jsstring := LF :: js "...[content truncated]".

(** [SearXNGResult]; the fields [engine] and [score] are never read and
    are left out. *)
Record SearXNGResult := mkHit {
  hit_title : option jsstring;
  hit_url : option jsstring;
  hit_content : option jsstring
}.

Record SearXNGResponse := mkResponse {
  response_results : option (list SearXNGResult)
}.

Record SearchResult := mkResult {
  title : jsstring;
  url : jsstring;
  description : jsstring;
  content : option jsstring;
  siteName : option jsstring
}.

Record ExternalContentInfo := mkInfo {
  untrusted : bool;
  source : jsstring;
  info_provider : jsstring;
  wrapped : bool
}.

(** The payload object of [runWebSearch]; an absent property is [None]. *)
Record Payload := mkPayload {
  query : jsstring;
  provider : jsstring;
  instance : option jsstring;
  count : Z;
  tookMs : Z;
  error : option jsstring;
  externalContent : option ExternalContentInfo;
  results : list SearchResult;
  cached : option bool
}.

(** *** The network

    What [fetch] can do: reject (network failure, abort on timeout), or
    resolve to a response with its [ok] flag and a body; reading the body
    ([res.json()], [res.text()]) can reject in turn, which is [None]. *)
Inductive FetchOutcome (A : Type) :=
| FetchThrows
| Response (ok : bool) (body : option A).
Arguments FetchThrows {A}.
Arguments Response {A}.

(** GET [instance/search?q=..&format=json&categories=general&language=..] *)
Record SearchRequest := mkSearchRequest {
  req_instance : jsstring;
  req_q : jsstring;
  req_language : jsstring;
  req_timeoutMs : Z
}.

Record JinaRequest := mkJinaRequest {
  req_jinaUrl : jsstring;
  req_jinaTimeoutMs : Z
}.

Inductive Request :=
| SearchReq (r : SearchRequest)
| JinaReq (r : JinaRequest).

(** Everything the pipeline takes from its host: the case mapping of
    strings, the outcome of the random shuffle, the replies of the
    network with the time each request takes, and the URL parser
    ([None] when [new URL] throws). *)
Record Env := mkEnv {
  toLowerCase : jsstring -> jsstring;
  shuffle : list jsstring -> list jsstring;
  search_reply : SearchRequest -> FetchOutcome SearXNGResponse;
  jina_reply : JinaRequest -> FetchOutcome jsstring;
  elapsed : Request -> Z;
  hostname : jsstring -> option jsstring
}.

(** The state the pipeline runs in: the clock, the requests issued so
    far, and the module-level [SEARCH_CACHE]. *)
Record World := mkWorld {
  now : Z;
  requests : list Request;
  SEARCH_CACHE : Cache Payload
}.

Definition M (A : Type) : Type := World -> A * World.

Definition ret {A} (a : A) : M A := fun w => (a, w).

Definition bind {A B} (m : M A) (k : A -> M B) : M B :=
  fun w => let (a, w') := m w in k a w'.

Notation "x <- m ;; k" := (bind m (fun x => k))
  (at level 20, m at level 99, k at level 200, only parsing).

Definition date_now : M Z := fun w => (now w, w).

Definition fetch {A} (reply : FetchOutcome A) (r : Request) (env : Env)
  : M (FetchOutcome A) :=
  fun w => (reply, {| now := now w + elapsed env r;
                      requests := requests w ++ [r];
                      SEARCH_CACHE := SEARCH_CACHE w |}).

Definition read_search_cache (key : jsstring)
  : M (option (CacheEntry Payload)) :=
  fun w => (readCache (entries (SEARCH_CACHE w)) key, w).

Definition write_search_cache (key : jsstring) (v : Payload) (ttlMs : Z)
  : M unit :=
  fun w => (tt, {| now := now w;
                   requests := requests w;
                   SEARCH_CACHE :=
                     writeCache (now w) (SEARCH_CACHE w) key v ttlMs |}).

(** [a || b] on strings that may be absent. *)
Definition or_else (a : option jsstring) (b : jsstring) : jsstring :=
  match a with
  | Some s => if truthy s then s else b
  | None => b
  end.

Definition searchRequest (query : jsstring) (language : option jsstring)
    (timeoutSeconds : Z) (inst : jsstring) : SearchRequest :=
  {| req_instance := inst;
     req_q := query;
     req_language := or_else language (js "en-US");
     req_timeoutMs := timeoutSeconds * 1000 |}.

(** What the loop body of [searchWithSearXNG] makes of a reply: the
    results when the response is [ok], parses, and holds a non-empty
    [results] array; otherwise the loop goes on ([continue], or the end
    of the body). *)
Definition usable_results (reply : FetchOutcome SearXNGResponse)
  : option (list SearXNGResult) :=
  match reply with
  | FetchThrows => None
  | Response false _ => None
  | Response true None => None
  | Response true (Some data) =>
      match response_results data with
      | Some rs => if 0 <? len rs then Some rs else None
      | None => None
      end
  end.

(** The [for ... of shuffledInstances] loop. *)
Fixpoint try_instances (env : Env) (query : jsstring) (count_ : Z)
    (language : option jsstring) (timeoutSeconds : Z)
    (instances : list jsstring)
  : M (option (list SearXNGResult * jsstring)) :=
  match instances with
  | [] => ret None
  | inst :: rest =>
      let req := searchRequest query language timeoutSeconds inst in
      res <- fetch (search_reply env req) (SearchReq req) env ;;
      match usable_results res with
      | Some rs => ret (Some (slice rs 0 count_, inst))
      | None => try_instances env query count_ language timeoutSeconds rest
      end
  end.

Definition searchWithSearXNG (env : Env) (query : jsstring) (count_ : Z)
    (language : option jsstring) (timeoutSeconds : Z)
  : M (option (list SearXNGResult * jsstring)) :=
  let shuffledInstances := shuffle env SEARXNG_INSTANCES in
  try_instances env query count_ language timeoutSeconds shuffledInstances.

Fixpoint startsWith (prefix s : jsstring) : bool :=
  match prefix, s with
  | [], _ => true
  | p :: prefix', c :: s' => N.eqb p c && startsWith prefix' s'
  | _ :: _, [] => false
  end.

Definition jinaUrl (target : jsstring) : jsstring :=
  if startsWith (js "http://") target
  then JINA_READER_URL ++ drop 7 target
  else JINA_READER_HTTPS_URL ++ target.

(** The tail of [fetchWithJinaReader], once the body text is there. *)
Definition limit_content (text : jsstring) : jsstring :=
  if MAX_CONTENT_LENGTH <? len text
  then slice text 0 MAX_CONTENT_LENGTH ++ TRUNCATION_MARKER
  else text.

Definition fetchWithJinaReader (env : Env) (target : jsstring)
    (timeoutSeconds : Z) : M (option jsstring) :=
  let req := {| req_jinaUrl := jinaUrl target;
                req_jinaTimeoutMs := timeoutSeconds * 1000 |} in
  res <- fetch (jina_reply env req) (JinaReq req) env ;;
  match res with
  | FetchThrows => ret None
  | Response false _ => ret None
  | Response true None => ret None
  | Response true (Some text) => ret (Some (limit_content text))
  end.

Definition resolveSiteName (env : Env) (u : jsstring) : option jsstring :=
  if truthy u then hostname env u else None.

(** [value] is [Some n] for a finite number [n] (integer-valued here),
    [None] for anything else. *)
Definition resolveSearchCount (v : option Z) (fallback : Z) : Z :=
  let parsed := match v with Some n => n | None => fallback end in
  Z.max 1 (Z.min MAX_SEARCH_COUNT parsed).

Record SearchParams := mkParams {
  param_query : jsstring;
  param_count : Z;
  param_timeoutSeconds : Z;
  param_cacheTtlMs : Z;
  param_language : option jsstring;
  param_fetchContent : option bool
}.

(** [`${n}`] for an integer. *)
Definition number_to_string (n : Z) : jsstring :=
  js (NilZero.string_of_int (Z.to_int n)).

(** [String(b)] for an optional boolean. *)
Definition String_of_flag (b : option bool) : jsstring :=
  match b with
  | Some true => js "true"
  | Some false => js "false"
  | None => js "undefined"
  end.

Definition cacheKeyOf (env : Env) (params : SearchParams) : jsstring :=
  normalizeCacheKey (toLowerCase env)
    (js "searxng:" ++ param_query params ++ js ":"
       ++ number_to_string (param_count params) ++ js ":"
       ++ or_else (param_language params) (js "default") ++ js ":"
       ++ String_of_flag (param_fetchContent params)).

(** [x || undefined] on an optional string. *)
Definition or_undefined (a : option jsstring) : option jsstring :=
  match a with
  | Some s => if truthy s then Some s else None
  | None => None
  end.

Definition WEB_SEARCH : option jsstring := Some (js "web_search").

(** The body of the loop over [searchResult.results]. *)
Definition mapResult (env : Env) (params : SearchParams)
    (entry : SearXNGResult) : M SearchResult :=
  let url_ := or_else (hit_url entry) [] in
  let title_ := or_else (hit_title entry) [] in
  let description_ := or_else (hit_content entry) [] in
  content_ <-
    (if negb (bool_decide (param_fetchContent params = Some false))
        && truthy url_
     then c <- fetchWithJinaReader env url_
                 (Z.min (param_timeoutSeconds params) 10) ;;
          ret (or_undefined c)
     else ret None) ;;
  ret {| title := if truthy title_ then wrapWebContent title_ WEB_SEARCH
                  else [];
         url := url_;
         description := if truthy description_
                        then wrapWebContent description_ WEB_SEARCH else [];
         content := match content_ with
                    | Some c => Some (wrapWebContent c WEB_SEARCH)
                    | None => None
                    end;
         siteName := or_undefined (resolveSiteName env url_) |}.

Fixpoint mapResults (env : Env) (params : SearchParams)
    (entries_ : list SearXNGResult) : M (list SearchResult) :=
  match entries_ with
  | [] => ret []
  | entry :: rest =>
      r <- mapResult env params entry ;;
      rs <- mapResults env params rest ;;
      ret (r :: rs)
  end.

Definition NO_RESULTS : jsstring :=
  js "No results found from any SearXNG instance".

Definition emptyPayload (params : SearchParams) (took : Z) : Payload :=
  {| query := param_query params;
     provider := js "searxng";
     instance := None;
     count := 0;
     tookMs := took;
     error := Some NO_RESULTS;
     externalContent := None;
     results := [];
     cached := None |}.

Definition resultPayload (params : SearchParams) (inst : jsstring)
    (mapped : list SearchResult) (took : Z) : Payload :=
  {| query := param_query params;
     provider := js "searxng";
     instance := Some inst;
     count := len mapped;
     tookMs := took;
     error := None;
     externalContent :=
       Some {| untrusted := true;
               source := js "web_search";
               info_provider := js "searxng+jina";
               wrapped := true |};
     results := mapped;
     cached := None |}.

(** [{ ...p, cached: true }] *)
Definition mark_cached (p : Payload) : Payload :=
  {| query := query p; provider := provider p; instance := instance p;
     count := count p; tookMs := tookMs p; error := error p;
     externalContent := externalContent p; results := results p;
     cached := Some true |}.

Definition runWebSearch (env : Env) (params : SearchParams) : M Payload :=
  let cacheKey := cacheKeyOf env params in
  hit <- read_search_cache cacheKey ;;
  match hit with
  | Some entry => ret (mark_cached (value entry))
  | None =>
      start <- date_now ;;
      searchResult <-
        searchWithSearXNG env (param_query params) (param_count params)
          (param_language params) (param_timeoutSeconds params) ;;
      match searchResult with
      | Some (hits, inst) =>
          if len hits =? 0 then
            t <- date_now ;;
            let payload := emptyPayload params (t - start) in
            u <- write_search_cache cacheKey payload
                      (param_cacheTtlMs params) ;;
            ret payload
          else
            mapped <- mapResults env params hits ;;
            t <- date_now ;;
            let payload := resultPayload params inst mapped (t - start) in
            u <- write_search_cache cacheKey payload
                      (param_cacheTtlMs params) ;;
            ret payload
      | None =>
          t <- date_now ;;
          let payload := emptyPayload params (t - start) in
          u <- write_search_cache cacheKey payload
                    (param_cacheTtlMs params) ;;
          ret payload
      end
  end.

(** The ways a provider can fail to deliver: the request rejects, the
    status is not 2xx, the body does not parse, or it parses and holds no
    [results] or an empty array. *)
Definition provider_fails (reply : FetchOutcome SearXNGResponse) : Prop :=
  reply = FetchThrows
  \/ (exists body, reply = Response false body)
  \/ reply = Response true None
  \/ reply = Response true (Some (mkResponse None))
  \/ reply = Response true (Some (mkResponse (Some []))).

(** A 2xx response whose body holds at least one result. *)
Definition provider_returns (reply : FetchOutcome SearXNGResponse)
    (rs : list SearXNGResult) : Prop :=
  reply = Response true (Some (mkResponse (Some rs))) /\ rs <> [].

End WebSearch.

(** ** Browser session manager: [src/browser/service.ts] *)

Module Browser.
Import JS.

(** A thrown value: an [Error] object with its [name] and [message]. *)
Record JsError := mkError { err_name : jsstring; err_message : jsstring }.

(** [new Error(message)] *)
Definition Error_ (message : jsstring) : JsError :=
  mkError (js "Error") message.

(** [String(error)], that is [Error.prototype.toString]. *)
Definition String_of_error (e : JsError) : jsstring :=
  match err_name e, err_message e with
  | [], m => m
  | n, [] => n
  | n, m => n ++ js ": " ++ m
  end.

Inductive result (A : Type) :=
| Ok (a : A)
| Throw (e : JsError).
Arguments Ok {A}.
Arguments Throw {A}.

(** The Puppeteer objects of a session are opaque handles. *)
Record BrowserSession := mkSession {
  browser : nat;
  context : nat;
  page : nat;
  id : jsstring
}.

(** The automation engine at the time of one call: the identifier the
    [Date.now]/[Math.random] template yields, and the outcome of each
    Puppeteer operation.  [launch] stands for the [try] block of
    [createSession] up to the three handles. *)
Record Engine := mkEngine {
  fresh_id : jsstring;
  launch : result (nat * nat * nat);
  goto : nat -> option jsstring -> result unit;
  innerText : nat -> result jsstring;
  close_context : nat -> result unit;
  close_browser : nat -> result unit
}.

(** [resources.maxBrowserSessions] of [DEFAULT_CONFIG] (the configuration
    module), the ceiling the README documents for mobile devices. *)
Definition DEFAULT_maxBrowserSessions : nat := 1%nat.

Record BrowserService := mkService {
  sessions : gmap jsstring BrowserSession;
  isShuttingDown : bool
}.

(** [this.sessions.get(sessionId)]; the gateway passes whatever the
    payload holds, and a value that is not a string is never a key. *)
Definition get_session (svc : BrowserService) (sessionId : option jsstring)
  : option BrowserSession :=
  match sessionId with
  | Some k => sessions svc !! k
  | None => None
  end.

(** [`${sessionId}`] *)
Definition show_id (sessionId : option jsstring) : jsstring :=
  match sessionId with
  | Some k => k
  | None => js "undefined"
  end.

Definition createSession (eng : Engine) (svc : BrowserService)
    (sessionId : option jsstring)
  : result BrowserSession * BrowserService :=
  if isShuttingDown svc
  then (Throw (Error_ (js "BrowserService is shutting down")), svc)
  else
    let id_ := match sessionId with
               | Some k => if truthy k then k else fresh_id eng
               | None => fresh_id eng
               end in
    match launch eng with
    | Ok (b, c, p) =>
        let session := mkSession b c p id_ in
        (Ok session,
         {| sessions := <[id_ := session]> (sessions svc);
            isShuttingDown := isShuttingDown svc |})
    | Throw e => (Throw e, svc)
    end.

Definition getSession (svc : BrowserService) (k : jsstring)
  : option BrowserSession := sessions svc !! k.

Definition session_not_found {A} (sessionId : option jsstring) : result A :=
  Throw (Error_ (js "Session not found: " ++ show_id sessionId)).

Definition navigate (eng : Engine) (svc : BrowserService)
    (sessionId : option jsstring) (target : option jsstring) : result unit :=
  match get_session svc sessionId with
  | None => session_not_found sessionId
  | Some session => goto eng (page session) target
  end.

Definition getTextContent (eng : Engine) (svc : BrowserService)
    (sessionId : option jsstring) : result jsstring :=
  match get_session svc sessionId with
  | None => session_not_found sessionId
  | Some session => innerText eng (page session)
  end.

(** [try { context.close(); browser.close() } catch { log } finally
    { sessions.delete(sessionId) }]: the outcome of the two closes is
    logged and dropped, the bookkeeping goes in both cases. *)
Definition closeSession (eng : Engine) (svc : BrowserService)
    (sessionId : option jsstring) : result unit * BrowserService :=
  match get_session svc sessionId with
  | None => (Ok tt, svc)
  | Some session =>
      let released :=
        match close_context eng (context session) with
        | Ok _ => close_browser eng (browser session)
        | Throw e => Throw e
        end in
      let svc' :=
        {| sessions := match sessionId with
                       | Some k => delete k (sessions svc)
                       | None => sessions svc
                       end;
           isShuttingDown := isShuttingDown svc |} in
      match released with
      | Ok _ => (Ok tt, svc')
      | Throw _ => (Ok tt, svc')
      end
  end.

Definition shutdown (eng : Engine) (svc : BrowserService) : BrowserService :=
  if isShuttingDown svc then svc
  else
    let closing := {| sessions := sessions svc; isShuttingDown := true |} in
    let closed :=
      foldl (fun s k => snd (closeSession eng s (Some k))) closing
            (map fst (map_to_list (sessions svc))) in
    {| sessions := ∅; isShuttingDown := isShuttingDown closed |}.

End Browser.

(** ** Gateway: [src/gateway/server.ts] *)

Module Gateway.
Import JS Browser.

(** The payload of a request, as far as the handlers destructure it. *)
Record RequestPayload := mkRequestPayload {
  sessionId : option jsstring;
  url : option jsstring
}.

(** An inbound envelope [{type, id, payload}]. *)
Record GatewayMessage := mkMessage {
  type : jsstring;
  msg_id : option jsstring;
  payload : option RequestPayload
}.

Inductive ReplyPayload :=
| SessionIdPayload (sessionId_ : jsstring)
| SuccessPayload (success : bool)
| ContentPayload (content : jsstring).

(** An outbound envelope, as handed to [JSON.stringify]; an absent
    property is [None]. *)
Record Reply := mkReply {
  reply_type : jsstring;
  reply_id : option jsstring;
  reply_payload : option ReplyPayload;
  reply_error : option jsstring
}.

(** The gateway as one connection sees it: the browser service ([null]
    when the browser is disabled) and what [ws.send] has put on the
    socket. *)
Record GatewayServer := mkGateway {
  browserService : option BrowserService;
  sent : list Reply
}.

Definition send (gw : GatewayServer) (svc : option BrowserService)
    (r : Reply) : GatewayServer :=
  {| browserService := svc; sent := sent gw ++ [r] |}.

Definition error_reply (id_ : option jsstring) (message : jsstring) : Reply :=
  mkReply (js "error") id_ None (Some message).

Definition SERVICE_DISABLED : jsstring := js "Browser service is disabled".

(** [const { sessionId } = payload] throws a [TypeError] when the message
    has no payload. *)
Definition destructure (p : option RequestPayload) : result RequestPayload :=
  match p with
  | Some fields => Ok fields
  | None =>
      Throw (mkError (js "TypeError")
               (js "Cannot destructure property 'sessionId' of 'payload'"))
  end.

Definition CONTENT_LIMIT : Z := 5000.

Definition handleWebSocketMessage (eng : Engine) (gw : GatewayServer)
    (message : GatewayMessage) : GatewayServer :=
  let id_ := msg_id message in
  let svc0 := browserService gw in
  if bool_decide (type message = js "ping") then
    send gw svc0 (mkReply (js "pong") id_ None None)
  else if bool_decide (type message = js "browser.create") then
    match svc0 with
    | None => send gw svc0 (error_reply id_ SERVICE_DISABLED)
    | Some svc =>
        match createSession eng svc None with
        | (Ok session, svc') =>
            send gw (Some svc')
              (mkReply (js "browser.created") id_
                 (Some (SessionIdPayload (id session))) None)
        | (Throw e, svc') =>
            send gw (Some svc') (error_reply id_ (String_of_error e))
        end
    end
  else if bool_decide (type message = js "browser.navigate") then
    match svc0 with
    | None => send gw svc0 (error_reply id_ SERVICE_DISABLED)
    | Some svc =>
        match destructure (payload message) with
        | Ok fields =>
            match navigate eng svc (sessionId fields) (url fields) with
            | Ok _ =>
                send gw svc0
                  (mkReply (js "browser.navigated") id_
                     (Some (SuccessPayload true)) None)
            | Throw e => send gw svc0 (error_reply id_ (String_of_error e))
            end
        | Throw e => send gw svc0 (error_reply id_ (String_of_error e))
        end
    end
  else if bool_decide (type message = js "browser.content") then
    match svc0 with
    | None => send gw svc0 (error_reply id_ SERVICE_DISABLED)
    | Some svc =>
        match destructure (payload message) with
        | Ok fields =>
            match getTextContent eng svc (sessionId fields) with
            | Ok content =>
                send gw svc0
                  (mkReply (js "browser.content") id_
                     (Some (ContentPayload (slice content 0 CONTENT_LIMIT)))
                     None)
            | Throw e => send gw svc0 (error_reply id_ (String_of_error e))
            end
        | Throw e => send gw svc0 (error_reply id_ (String_of_error e))
        end
    end
  else if bool_decide (type message = js "browser.close") then
    match svc0 with
    | None => send gw svc0 (error_reply id_ SERVICE_DISABLED)
    | Some svc =>
        match destructure (payload message) with
        | Ok fields =>
            match closeSession eng svc (sessionId fields) with
            | (Ok _, svc') =>
                send gw (Some svc')
                  (mkReply (js "browser.closed") id_
                     (Some (SuccessPayload true)) None)
            | (Throw e, svc') =>
                send gw (Some svc') (error_reply id_ (String_of_error e))
            end
        | Throw e => send gw svc0 (error_reply id_ (String_of_error e))
        end
    end
  else
    send gw svc0
      (error_reply id_ (js "Unknown message type: " ++ type message)).

End Gateway.

(** ** Concrete situations used to exercise the model *)

Module Scenarios.
Import JS WebShared WebSearch Browser Gateway.

Definition hit (n : string) : SearXNGResult :=
  mkHit (Some (js n)) None (Some (js "snippet")).

(** The first instance of the pool times out, the second answers 503,
    the third answers with three results; nobody else is reachable. *)
Definition third_answers : Env :=
  {| toLowerCase := ascii_toLowerCase;
     shuffle := fun pool => pool;
     search_reply := fun r =>
       if bool_decide (req_instance r = js "https://searx.dresden.network")
       then Response false None
       else if bool_decide (req_instance r = js "https://search.sapti.me")
       then Response true
              (Some (mkResponse (Some [hit "one"; hit "two"; hit "three"])))
       else FetchThrows;
     jina_reply := fun _ => FetchThrows;
     elapsed := fun _ => 40;
     hostname := fun _ => None |}.

(** Every provider is unreachable. *)
Definition all_unreachable : Env :=
  {| toLowerCase := ascii_toLowerCase;
     shuffle := fun pool => rev pool;
     search_reply := fun _ => FetchThrows;
     jina_reply := fun _ => FetchThrows;
     elapsed := fun _ => 25;
     hostname := fun _ => None |}.

(** The extraction service answers every request with 5001 units. *)
Definition long_page : Env :=
  {| toLowerCase := ascii_toLowerCase;
     shuffle := fun pool => pool;
     search_reply := fun _ => FetchThrows;
     jina_reply := fun _ => Response true (Some (repeat 97%N (Z.to_nat 5001)));
     elapsed := fun _ => 40;
     hostname := fun _ => None |}.

Definition test_query (ttlMs : Z) : SearchParams :=
  {| param_query := js "test";
     param_count := 5;
     param_timeoutSeconds := 30;
     param_cacheTtlMs := ttlMs;
     param_language := None;
     param_fetchContent := Some true |}.

Definition start_world (t : Z) : World :=
  {| now := t; requests := []; SEARCH_CACHE := mkCache ∅ [] |}.

(** The world two minutes after the query ["test"] met no provider, the
    cache having been written with a time to live of one hour. *)
Definition two_minutes_later : World :=
  let w := snd (runWebSearch all_unreachable (test_query 3600000)
                  (start_world 0)) in
  {| now := now w + 120000;
     requests := [];
     SEARCH_CACHE := run_due_timers (now w + 120000) (SEARCH_CACHE w) |}.

(** The same cache one hour and one millisecond after the write, before
    the timer phase has run the cleanup that is due. *)
Definition cleanup_pending : World :=
  let w := snd (runWebSearch all_unreachable (test_query 3600000)
                  (start_world 0)) in
  {| now := now w + 3600001;
     requests := [];
     SEARCH_CACHE := SEARCH_CACHE w |}.

Definition engine_up (n : nat) (name : string) : Engine :=
  {| fresh_id := js name;
     launch := Ok (n, n, n);
     goto := fun _ _ => Ok tt;
     innerText := fun _ => Ok (repeat 120%N (Z.to_nat 6000));
     close_context := fun _ => Ok tt;
     close_browser := fun _ => Throw (Error_ (js "Target closed")) |}.

Definition one_session : BrowserService :=
  snd (createSession (engine_up 1 "session_1_a") (mkService ∅ false) None).

End Scenarios.

(** ** JavaScript numbers

    A [number] is a double: a finite value, which is a rational, [NaN],
    or an infinity.  [Math.max], [Math.min] and [Math.floor] are exact on
    finite values. *)

Module Numbers.

Inductive number :=
| Finite (q : Q)
| NaN
| Infinity (negative : bool).

(** [Number.isInteger] *)
Definition isInteger (n : number) : bool :=
  match n with
  | Finite q => Qeq_bool q (inject_Z (Qfloor q))
  | _ => false
  end.

(** An integer as a [number]. *)
Definition of_Z (n : Z) : number := Finite (inject_Z n).

End Numbers.

(** ** The rest of [src/agents/tools/web-shared.ts] *)

Module WebSharedRest.
Import JS Numbers Browser.

Definition DEFAULT_CACHE_TTL_MINUTES : Z := 60.
Definition DEFAULT_TIMEOUT_SECONDS : Z := 30.
Definition MAX_CACHE_TTL_MINUTES : Z := 1440.
Definition MAX_TIMEOUT_SECONDS : Z := 120.

(** [configured] is [None] for [undefined] or [null].  The default is
    returned as it is; the callers pass integers. *)
Definition resolveTimeoutSeconds (configured : option number)
    (defaultValue : Z) : Z :=
  match configured with
  | None => defaultValue
  | Some (Finite q) =>
      let clamped := Qmax 1 (Qmin (inject_Z MAX_TIMEOUT_SECONDS) q) in
      Qfloor clamped
  | Some _ => defaultValue
  end.

Definition resolveCacheTtlMs (configuredMinutes : option number)
    (defaultValue : Z) : Z :=
  match configuredMinutes with
  | None => defaultValue * 60 * 1000
  | Some (Finite q) =>
      let clamped := Qmax 1 (Qmin (inject_Z MAX_CACHE_TTL_MINUTES) q) in
      Qfloor clamped * 60 * 1000
  | Some _ => defaultValue * 60 * 1000
  end.

(** *** [readResponseText]

    The body of a response is a stream of reads: each yields a chunk of
    bytes ([None] for a read without a [value]), and the end of the list
    is the read that reports [done]. *)
Record ReadResponseResult := mkRead {
  text : jsstring;
  truncated : bool;
  bytesRead : Z
}.

(** The [while (bytesRead < maxBytes)] loop, returning the chunks pushed,
    [bytesRead] and [truncated]. *)
Fixpoint read_chunks (maxBytes : Z) (stream : list (option (list Byte.byte)))
    (chunks : list (list Byte.byte)) (bytesRead_ : Z)
  : list (list Byte.byte) * Z * bool :=
  match stream with
  | [] => (chunks, bytesRead_, false)
  | read :: rest =>
      if bytesRead_ <? maxBytes then
        match read with
        | None => read_chunks maxBytes rest chunks bytesRead_
        | Some v =>
            let remaining := maxBytes - bytesRead_ in
            let toRead := Z.min (len v) remaining in
            let chunks' := chunks ++ [slice v 0 toRead] in
            let bytesRead' := bytesRead_ + toRead in
            if maxBytes <=? bytesRead' then (chunks', bytesRead', true)
            else read_chunks maxBytes rest chunks' bytesRead'
        end
      else (chunks, bytesRead_, false)
  end.

Definition DEFAULT_MAX_BYTES : Z := 1024 * 1024.

(** All the bytes a stream delivers, end to end. *)
Definition body_bytes (stream : list (option (list Byte.byte)))
  : list Byte.byte :=
  concat (omap (fun read => read) stream).

(** [body] is [None] when the response has no body to read; [decode] is
    the UTF-8 [TextDecoder].  The bytes handed to the decoder are the
    chunks laid end to end. *)
Definition readResponseText (decode : list Byte.byte -> jsstring)
    (body : option (list (option (list Byte.byte)))) (maxBytes : option Z)
  : ReadResponseResult :=
  let maxBytes_ := match maxBytes with Some m => m | None => DEFAULT_MAX_BYTES end in
  match body with
  | None => {| text := []; truncated := false; bytesRead := 0 |}
  | Some stream =>
      let '(chunks, n, t) := read_chunks maxBytes_ stream [] 0 in
      {| text := decode (concat chunks); truncated := t; bytesRead := n |}
  end.

(** *** [withRetry]

    [fn] is called again and again: [fn k] is the outcome of its call
    number [k].  The state records how many calls were made and how long
    each [sleep] was. *)
Record RetryOptions := mkRetry {
  maxRetries : Z;
  retryDelayMs : Z;
  backoffMultiplier : Z
}.

Definition DEFAULT_RETRY_OPTIONS : RetryOptions :=
  {| maxRetries := 3; retryDelayMs := 1000; backoffMultiplier := 2 |}.

Record RetryRun := mkRun {
  calls : nat;
  sleeps : list Z
}.

(** The [for (attempt = 0; attempt <= maxRetries; attempt++)] loop from
    the iteration [attempt] on.  [budget] bounds the iterations; the loop
    is entered with the number of values [attempt] can take. *)
Fixpoint retry_loop {A} (fn : nat -> result A) (opts : RetryOptions)
    (budget : nat) (attempt : Z) (delay : Z) (lastError : option JsError)
    (run : RetryRun) : result A * RetryRun :=
  match budget with
  | O =>
      (Throw (match lastError with
              | Some e => e
              | None => Error_ (js "Operation failed after retries")
              end), run)
  | S budget' =>
      if attempt <=? maxRetries opts then
        match fn (calls run) with
        | Ok a => (Ok a, mkRun (S (calls run)) (sleeps run))
        | Throw e =>
            if attempt <? maxRetries opts then
              retry_loop fn opts budget' (attempt + 1)
                (delay * backoffMultiplier opts) (Some e)
                (mkRun (S (calls run)) (sleeps run ++ [delay]))
            else
              retry_loop fn opts budget' (attempt + 1) delay (Some e)
                (mkRun (S (calls run)) (sleeps run))
        end
      else
        (Throw (match lastError with
                | Some e => e
                | None => Error_ (js "Operation failed after retries")
                end), run)
  end.

(** The decimal rendering of a call number, for telling errors apart. *)
Definition number_to_string_of_nat (k : nat) : jsstring :=
  js (NilZero.string_of_uint (Nat.to_uint k)).

Definition withRetry {A} (fn : nat -> result A) (opts : RetryOptions)
  : result A * RetryRun :=
  retry_loop fn opts (Z.to_nat (maxRetries opts + 1) + 1) 0
    (retryDelayMs opts) None (mkRun 0 []).

End WebSharedRest.

(** ** The rest of [src/security/external-content.ts] *)

Module ExternalContentRest.
Import JS ExternalContent.

(** [s.split("\n")]: the pieces between line feeds; the empty string has
    one, empty, piece. *)
Fixpoint split_lines (s : jsstring) : list jsstring :=
  match s with
  | [] => [[]]
  | c :: r =>
      if N.eqb c LF then [] :: split_lines r
      else match split_lines r with
           | l :: ls => (c :: l) :: ls
           | [] => [[c]]
           end
  end.

(** [lines.join("\n")] *)
Fixpoint join_lines (ls : list jsstring) : jsstring :=
  match ls with
  | [] => []
  | [l] => l
  | l :: rest => l ++ LF :: join_lines rest
  end.

(** A piece without line feed. *)
Definition no_LF (l : jsstring) : Prop := Forall (fun c => c <> LF) l.

Definition truncateByLines (content : jsstring) (maxLines : Z)
    (suffix_ : option jsstring) : jsstring :=
  let suffix_ := match suffix_ with Some s => s | None => DEFAULT_SUFFIX end in
  let lines := split_lines content in
  if len lines <=? maxLines then content
  else join_lines (slice lines 0 maxLines) ++ suffix_.

(** The classes [[a-zA-Z0-9]]. *)
Definition alnum (c : N) : bool :=
  ((97 <=? c) && (c <=? 122) || (65 <=? c) && (c <=? 90)
   || (48 <=? c) && (c <=? 57))%N.

(** A string argument is always a string; the tests are the length of
    the trimmed content, [/^[\s\n\r\t]*$/] and [/[a-zA-Z0-9]/]. *)
Definition isValidContent (content : jsstring) : bool :=
  if negb (truthy content) then false
  else
    let trimmed := trim content in
    if len trimmed <? 10 then false
    else if forallb is_space trimmed then false
    else if negb (existsb alnum trimmed) then false
    else true.

End ExternalContentRest.

(** ** Tool parameters: [src/agents/tools/common.ts] *)

Module Common.
Import JS Numbers Browser.

(** The values a tool argument can hold, as far as the readers tell them
    apart. *)
Inductive JsValue :=
| VUndefined
| VNull
| VBoolean (b : bool)
| VNumber (n : number)
| VString (s : jsstring)
| VObject.

(** [params[key]]: a missing property reads as [undefined]. *)
Definition property (params : gmap jsstring JsValue) (key : jsstring)
  : JsValue :=
  match params !! key with
  | Some v => v
  | None => VUndefined
  end.

Definition missing_parameter {A} (key : jsstring) : result A :=
  Throw (Error_ (js "Missing required parameter: " ++ key)).

Definition readStringParam (params : gmap jsstring JsValue) (key : jsstring)
    (required : bool) (default_ : option jsstring)
  : result (option jsstring) :=
  match property params key with
  | VUndefined | VNull =>
      if required then missing_parameter key else Ok default_
  | VString s => Ok (Some s)
  | _ => Throw (Error_ (js "Parameter " ++ key ++ js " must be a string"))
  end.

Definition readNumberParam (params : gmap jsstring JsValue) (key : jsstring)
    (required : bool) (default_ : option number) (integer : bool)
  : result (option number) :=
  match property params key with
  | VUndefined | VNull =>
      if required then missing_parameter key else Ok default_
  | VNumber n =>
      if integer && negb (isInteger n)
      then Throw (Error_ (js "Parameter " ++ key ++ js " must be an integer"))
      else Ok (Some n)
  | _ => Throw (Error_ (js "Parameter " ++ key ++ js " must be a number"))
  end.

Definition readBooleanParam (params : gmap jsstring JsValue) (key : jsstring)
    (required : bool) (default_ : option bool) : result (option bool) :=
  match property params key with
  | VUndefined | VNull =>
      if required then missing_parameter key else Ok default_
  | VBoolean b => Ok (Some b)
  | _ => Throw (Error_ (js "Parameter " ++ key ++ js " must be a boolean"))
  end.

End Common.

(** ** The tool factory of [src/agents/tools/web-search.ts] *)

Module WebSearchTool.
Import JS Numbers Browser Common WebShared WebSharedRest WebSearch.

(** [tools.web.search] of the configuration. *)
Record SearchConfig := mkSearchConfig {
  enabled : option bool;
  maxResults : option number;
  timeoutSeconds : option number;
  cacheTtlMinutes : option number
}.

Definition resolveSearchEnabled (search : option SearchConfig)
    (sandboxed : bool) : bool :=
  match search with
  | Some cfg =>
      match enabled cfg with
      | Some b => b
      | None => if sandboxed then true else true
      end
  | None => if sandboxed then true else true
  end.

(** What [resolveSearchCount] makes of a number before clamping it: a
    finite number counts, rounded down by [Math.floor]; anything else
    gives way to the fallback. *)
Definition finite_floor (n : number) : option Z :=
  match n with
  | Finite q => Some (Qfloor q)
  | _ => None
  end.

(** [params.fetch_content !== false] *)
Definition not_false (v : JsValue) : bool :=
  match v with
  | VBoolean false => false
  | _ => true
  end.

(** [readStringParam(params, "search_lang") ||
    readStringParam(params, "language")] *)
Definition read_language (args : gmap jsstring JsValue)
  : result (option jsstring) :=
  match readStringParam args (js "search_lang") false None with
  | Throw e => Throw e
  | Ok (Some s) =>
      if truthy s then Ok (Some s)
      else readStringParam args (js "language") false None
  | Ok None => readStringParam args (js "language") false None
  end.

(** The [execute] method of the tool, up to the JSON rendering of the
    payload.  The query is read as required, so the reader never returns
    [undefined]; the model renders that case as a template literal
    would. *)
Definition execute (search : option SearchConfig) (env : Env)
    (args : gmap jsstring JsValue) : M (result Payload) :=
  match readStringParam args (js "query") true None with
  | Throw e => ret (Throw e)
  | Ok query_ =>
      match readNumberParam args (js "count") false None true with
      | Throw e => ret (Throw e)
      | Ok count_param =>
          let count_ :=
            match count_param with
            | Some n => n
            | None =>
                match search ≫= maxResults with
                | Some n => n
                | None => of_Z DEFAULT_SEARCH_COUNT
                end
            end in
          match read_language args with
          | Throw e => ret (Throw e)
          | Ok language =>
              let fetchContent := not_false (property args (js "fetch_content")) in
              p <- runWebSearch env
                     {| param_query :=
                          match query_ with
                          | Some q => q
                          | None => js "undefined"
                          end;
                        param_count :=
                          resolveSearchCount (finite_floor count_)
                            DEFAULT_SEARCH_COUNT;
                        param_timeoutSeconds :=
                          resolveTimeoutSeconds (search ≫= timeoutSeconds)
                            DEFAULT_TIMEOUT_SECONDS;
                        param_cacheTtlMs :=
                          resolveCacheTtlMs (search ≫= cacheTtlMinutes)
                            DEFAULT_CACHE_TTL_MINUTES;
                        param_language := or_undefined language;
                        param_fetchContent := Some fetchContent |} ;;
              ret (Ok p)
          end
      end
  end.

(** [createWebSearchTool]: the tool, or [null] when search is disabled. *)
Definition createWebSearchTool (search : option SearchConfig)
    (sandboxed : bool)
  : option (Env -> gmap jsstring JsValue -> M (result Payload)) :=
  if negb (resolveSearchEnabled search sandboxed) then None
  else Some (execute search).

End WebSearchTool.

(** ** Life cycle of the gateway: [src/gateway/server.ts] *)

Module GatewayLifecycle.
Import JS Browser.

Record BrowserOptions := mkBrowserOptions {
  opt_enabled : option bool;
  opt_headless : option bool;
  opt_executablePath : option jsstring
}.

Record GatewayConfig := mkConfig {
  port : Z;
  host : jsstring;
  verbose : option bool;
  browser_options : option BrowserOptions
}.

(** The fields of a [GatewayServer]; a server object is [true] when it
    is allocated, [false] when the field is [null]. *)
Record Server := mkServer {
  config : GatewayConfig;
  httpServer : bool;
  wsServer : bool;
  service : option BrowserService;
  isRunning : bool
}.


(** [this.config.browser?.enabled], as a condition. *)
Definition browser_enabled (cfg : GatewayConfig) : bool :=
  match browser_options cfg with
  | Some o => match opt_enabled o with Some b => b | None => false end
  | None => false
  end.

(** A [BrowserService] fresh from its constructor. *)
Definition new_BrowserService : BrowserService :=
  {| sessions := ∅; isShuttingDown := false |}.

(** [start]; [listening] tells whether [listen] succeeds.  The result is
    [Throw] when the promise rejects. *)
Definition start (listening : result unit) (srv : Server)
  : result unit * Server :=
  if isRunning srv then (Ok tt, srv)
  else
    let service_ :=
      if browser_enabled (config srv) then Some new_BrowserService
      else service srv in
    match listening with
    | Ok _ =>
        (Ok tt,
         {| config := config srv; httpServer := true; wsServer := true;
            service := service_; isRunning := true |})
    | Throw e =>
        (Throw e,
         {| config := config srv; httpServer := true; wsServer := true;
            service := service_; isRunning := false |})
    end.

(** [stop]; the browser service shut down on the way is returned beside
    the server, which no longer holds it. *)
Definition stop (eng : Engine) (srv : Server)
  : option BrowserService * Server :=
  if negb (isRunning srv) then (None, srv)
  else
    (match service srv with
     | Some svc => Some (shutdown eng svc)
     | None => None
     end,
     {| config := config srv; httpServer := false; wsServer := false;
        service := None; isRunning := false |}).

End GatewayLifecycle.

(** ** Vocabulary for the properties of the cache key and the pipeline *)

Module Vocabulary.
Import JS ExternalContent WebShared WebSearch.

(** Two units that the key normalisation does not tell apart: equal
    units, or two units outside [[a-z0-9_-]] that are not white space. *)
Definition same_key_unit (a b : N) : Prop :=
  a = b
  \/ (key_char a = false /\ key_char b = false
      /\ is_space a = false /\ is_space b = false).

(** A text field that is empty or wrapped by the content guard. *)
Definition guarded_text (s : jsstring) : Prop :=
  s = [] \/ exists raw, raw <> [] /\ s = wrapWebContent raw WEB_SEARCH.

(** A result all of whose texts went through the content guard. *)
Definition guarded (r : SearchResult) : Prop :=
  guarded_text (title r)
  /\ guarded_text (description r)
  /\ match content r with
     | None => True
     | Some c => exists raw, raw <> [] /\ c = wrapWebContent raw WEB_SEARCH
     end.

Definition is_search_request (r : Request) : Prop :=
  match r with
  | SearchReq _ => True
  | JinaReq _ => False
  end.

End Vocabulary.

(** ** Further concrete situations *)

Module MoreScenarios.
Import JS Numbers WebShared WebSearch Browser Gateway Common WebSearchTool.
Import Scenarios.

(** The query ["test"] for two results, without content extraction. *)
Definition snippets_only : SearchParams :=
  {| param_query := js "test";
     param_count := 2;
     param_timeoutSeconds := 30;
     param_cacheTtlMs := 3600000;
     param_language := None;
     param_fetchContent := Some false |}.

(** Tool arguments: a query, and a count beyond the maximum. *)
Definition eager_args : gmap jsstring JsValue :=
  {[ js "query" := VString (js "test");
     js "count" := VNumber (of_Z 50) ]}.

(** Tool arguments with a fractional count. *)
Definition fractional_args : gmap jsstring JsValue :=
  {[ js "query" := VString (js "test");
     js "count" := VNumber (Finite (5 # 2)) ]}.

(** A configuration with a timeout beyond the maximum and a time to live
    below the minimum. *)
Definition odd_config : SearchConfig :=
  {| enabled := None;
     maxResults := None;
     timeoutSeconds := Some (of_Z 500);
     cacheTtlMinutes := Some (Finite (1 # 2)) |}.

(** A service tracking the sessions ["a"] and ["b"]. *)
Definition two_sessions : BrowserService :=
  snd (createSession (engine_up 2 "unused")
         (snd (createSession (engine_up 1 "unused") (mkService ∅ false)
                 (Some (js "a"))))
         (Some (js "b"))).

(** An engine whose browser does not start. *)
Definition engine_down : Engine :=
  {| fresh_id := js "session_0_x";
     launch := Throw (Error_ (js "Failed to launch the browser process"));
     goto := fun _ _ => Throw (Error_ (js "Navigation timeout"));
     innerText := fun _ => Throw (Error_ (js "Target closed"));
     close_context := fun _ => Throw (Error_ (js "Target closed"));
     close_browser := fun _ => Throw (Error_ (js "Target closed")) |}.

End MoreScenarios.

(* ===================================================================== *)
(** * Part II: properties                                                 *)
(* ===================================================================== *)

Module JSFacts.
Import JS.

Lemma len_nonneg {A} (l : list A) : 0 <= len l.
Proof. unfold len. lia. Qed.

Lemma len_app {A} (l k : list A) : len (l ++ k) = len l + len k.
Proof. unfold len. rewrite length_app. lia. Qed.

Lemma rel_index_range n i : 0 <= n -> 0 <= rel_index n i <= n.
Proof. unfold rel_index. intros Hn. destruct (i <? 0) eqn:E; lia. Qed.

(** A slice from the start with a non-negative end is a prefix. *)
Lemma slice_0_take {A} (l : list A) (n : Z) :
  0 <= n -> slice l 0 n = take (Z.to_nat n) l.
Proof.
  intros Hn. unfold slice, rel_index. pose proof (len_nonneg l) as Hl.
  destruct (Z.ltb_spec n 0) as [?|_]; [lia|].
  destruct (Z.ltb_spec 0 0) as [?|_]; [lia|].
  rewrite (Z.min_l 0) by lia. simpl drop. rewrite Z.sub_0_r.
  destruct (Z.le_gt_cases n (len l)) as [H|H].
  - rewrite Z.min_l by lia. reflexivity.
  - rewrite Z.min_r by lia. unfold len in *.
    rewrite Nat2Z.id. rewrite (take_ge l (Z.to_nat n)) by lia.
    apply take_ge. lia.
Qed.

Lemma slice_len_le {A} (l : list A) (a b : Z) : len (slice l a b) <= len l.
Proof.
  unfold slice, len. rewrite length_take, length_drop. lia.
Qed.

Lemma slice_0_len_bound {A} (l : list A) (n : Z) :
  0 <= n -> len (slice l 0 n) <= n.
Proof.
  intros Hn. rewrite slice_0_take by assumption.
  unfold len. rewrite length_take. lia.
Qed.

Lemma slice_0_all {A} (l : list A) (n : Z) :
  len l <= n -> slice l 0 n = l.
Proof.
  intros H. pose proof (len_nonneg l).
  rewrite slice_0_take by lia. apply take_ge. unfold len in *. lia.
Qed.

End JSFacts.

Module ExternalContentFacts.
Import JS JSFacts ExternalContent.

Example wrap_example :
  wrapWebContent (js "hi") (Some (js "web_search"))
  = js "<!-- EXTERNAL_CONTENT [Source: web_search] -->" ++ [LF]
      ++ js "hi" ++ [LF] ++ js "<!-- END_EXTERNAL_CONTENT -->".
Proof. reflexivity. Qed.

Example wrap_no_source :
  wrapWebContent (js "hi") None
  = js "<!-- EXTERNAL_CONTENT -->" ++ [LF]
      ++ js "hi" ++ [LF] ++ js "<!-- END_EXTERNAL_CONTENT -->".
Proof. reflexivity. Qed.

Example truncate_example :
  truncateContent (js "aaaa bbbb cccc dddd eeee ffff gggg hhhh") 30 None
  = js "aaaa bb" ++ DEFAULT_SUFFIX.
Proof. reflexivity. Qed.

Example truncate_word_boundary :
  truncateContent (js "aaaaaaaaa bbbbbbbbbbbbbbbbbbbbbbbbbbbbbbbbbb") 34 None
  = js "aaaaaaaaa" ++ DEFAULT_SUFFIX.
Proof. reflexivity. Qed.

Lemma truthy_false (s : jsstring) : truthy s = false -> s = [].
Proof. destruct s; [reflexivity | discriminate]. Qed.

Lemma truthy_true (s : jsstring) : s <> [] -> truthy s = true.
Proof. destruct s; [congruence | reflexivity]. Qed.

(** C10. [wrapWebContent] gives the empty string, without any marker, for
    the empty (the only falsy) content; for non-empty content the result
    is the content between an [EXTERNAL_CONTENT] comment line (carrying
    the optional source label) and the [END_EXTERNAL_CONTENT] comment
    line. *)
Theorem wrapWebContent_markers (content : jsstring) (source : option jsstring) :
  (content = [] -> wrapWebContent content source = []) /\
  (content <> [] ->
     exists label,
       wrapWebContent content source
       = js "<!-- EXTERNAL_CONTENT" ++ label ++ js " -->" ++ [LF]
           ++ content ++ [LF] ++ js "<!-- END_EXTERNAL_CONTENT -->").
Proof.
  split.
  - intros ->. reflexivity.
  - intros Hne. exists (sourceLabel source).
    unfold wrapWebContent. rewrite (truthy_true content Hne). reflexivity.
Qed.

Lemma wrapWebContent_markers_witness :
  js "hi" <> [] /\
  exists label,
    wrapWebContent (js "hi") (Some (js "web_search"))
    = js "<!-- EXTERNAL_CONTENT" ++ label ++ js " -->" ++ [LF]
        ++ js "hi" ++ [LF] ++ js "<!-- END_EXTERNAL_CONTENT -->".
Proof.
  assert (H : js "hi" <> []) by discriminate.
  split; [exact H |].
  exact (proj2 (wrapWebContent_markers (js "hi") (Some (js "web_search"))) H).
Defined.

(** What [truncateContent] returns never exceeds a non-negative
    [maxLength]: the suffix is paid for out of the budget. *)
Lemma truncateContent_len (content : jsstring) (maxLength : Z)
    (options : option TruncateOptions) :
  0 <= maxLength -> len (truncateContent content maxLength options) <= maxLength.
Proof.
  intros Hmax. unfold truncateContent.
  destruct (truthy content) eqn:Ht; simpl.
  2:{ apply truthy_false in Ht. subst. unfold len. simpl. lia. }
  destruct (Z.leb_spec (len content) maxLength) as [Hle|Hgt]; [exact Hle|].
  set (avail := maxLength - len (suffix_of options)).
  destruct (Z.leb_spec avail 0) as [Ha|Ha].
  - apply slice_0_len_bound. exact Hmax.
  - assert (Hcut : len (slice content 0 avail) <= avail)
      by (apply slice_0_len_bound; lia).
    destruct (preserveWords_of options).
    + rewrite len_app.
      destruct (4 * avail <? 5 * lastIndexOf SPACE (slice content 0 avail)).
      * pose proof (slice_len_le (slice content 0 avail) 0
                      (lastIndexOf SPACE (slice content 0 avail))).
        unfold avail in *. lia.
      * unfold avail in *. lia.
    + rewrite len_app. unfold avail in *. lia.
Qed.

(** Content within the limit passes through, whatever the options. *)
Lemma truncateContent_short (content : jsstring) (maxLength : Z)
    (options : option TruncateOptions) :
  len content <= maxLength -> truncateContent content maxLength options = content.
Proof.
  intros H. unfold truncateContent.
  destruct (Z.leb_spec (len content) maxLength) as [_|?]; [|lia].
  rewrite orb_true_r. reflexivity.
Qed.

(** C8, as the code has it.  For a non-negative maximum length,
    truncating the output of [truncateContent] again, with the same or a
    larger maximum length and with any options, returns it unchanged. *)
Theorem truncateContent_idempotent (content : jsstring)
    (maxLength maxLength' : Z) (options options' : option TruncateOptions) :
  0 <= maxLength -> maxLength <= maxLength' ->
  truncateContent (truncateContent content maxLength options) maxLength' options'
  = truncateContent content maxLength options.
Proof.
  intros Hmax Hle. apply truncateContent_short.
  pose proof (truncateContent_len content maxLength options Hmax). lia.
Qed.

Lemma truncateContent_idempotent_witness :
  0 <= 30 /\ 30 <= 40 /\
  truncateContent
    (truncateContent (js "aaaa bbbb cccc dddd eeee ffff gggg hhhh") 30 None)
    40 None
  = truncateContent (js "aaaa bbbb cccc dddd eeee ffff gggg hhhh") 30 None.
Proof.
  split; [lia | split; [lia |]].
  apply (truncateContent_idempotent
           (js "aaaa bbbb cccc dddd eeee ffff gggg hhhh") 30 40 None None);
    lia.
Defined.

(** C8 does not extend to negative maximum lengths: there
    [slice(0, maxLength)] counts from the end of the string, so each
    application drops further units:
    ["abc"] gives ["ab"], and ["ab"] gives ["a"]. *)
Lemma truncateContent_negative_not_idempotent :
  truncateContent (js "abc") (-1) None = js "ab" /\
  truncateContent (truncateContent (js "abc") (-1) None) (-1) None
  <> truncateContent (js "abc") (-1) None.
Proof. split; [reflexivity | vm_compute; discriminate]. Qed.

End ExternalContentFacts.

Module WebSharedFacts.
Import JS JSFacts WebShared.

Example normalize_example :
  normalizeCacheKey ascii_toLowerCase (js "  SearXNG:Hello   World:5:default:true ")
  = js "searxng_hello_world_5_default_true".
Proof. reflexivity. Qed.

Ltac unit_ranges :=
  unfold key_char, is_space in *;
  repeat rewrite ?andb_true_iff, ?orb_true_iff, ?andb_false_iff,
    ?orb_false_iff, ?N.leb_le, ?N.eqb_eq, ?N.leb_gt, ?N.eqb_neq in *;
  lia.

Lemma key_char_not_space (c : N) : key_char c = true -> is_space c = false.
Proof. intros H. unit_ranges. Qed.

Lemma underscore_key_char : key_char UNDERSCORE = true.
Proof. reflexivity. Qed.

Lemma ascii_toLowerCase_key (s : jsstring) :
  key_string s -> ascii_toLowerCase s = s.
Proof.
  unfold key_string, ascii_toLowerCase. induction 1 as [|c r Hc _ IH].
  - reflexivity.
  - simpl. rewrite IH. f_equal.
    destruct ((65 <=? c)%N && (c <=? 90)%N) eqn:E; [|reflexivity].
    exfalso. unit_ranges.
Qed.

(** *** Strings without white space are fixed by the trimming and
    collapsing steps *)

Lemma trimStart_key (s : jsstring) : key_string s -> trimStart s = s.
Proof.
  destruct 1 as [|c r Hc _]; [reflexivity|].
  simpl. rewrite (key_char_not_space c Hc). reflexivity.
Qed.

Lemma trimEnd_key (s : jsstring) : key_string s -> trimEnd s = s.
Proof.
  induction 1 as [|c r Hc _ IH]; [reflexivity|].
  simpl. rewrite IH. destruct r; [|reflexivity].
  rewrite (key_char_not_space c Hc). reflexivity.
Qed.

Lemma replace_space_runs_key (rep : jsstring) (b : bool) (s : jsstring) :
  key_string s -> replace_space_runs rep b s = s.
Proof.
  intros H. revert b. induction H as [|c r Hc _ IH]; intros b; [reflexivity|].
  simpl. rewrite (key_char_not_space c Hc), IH. reflexivity.
Qed.

Lemma replace_outside_key (rep : jsstring) (s : jsstring) :
  key_string s -> replace_outside key_char rep s = s.
Proof.
  induction 1 as [|c r Hc _ IH]; [reflexivity|].
  unfold replace_outside in *. simpl. rewrite Hc, IH. reflexivity.
Qed.

Lemma replace_outside_is_key (s : jsstring) :
  key_string (replace_outside key_char [UNDERSCORE] s).
Proof.
  unfold key_string, replace_outside. induction s as [|c r IH]; simpl.
  - constructor.
  - destruct (key_char c) eqn:E; simpl; constructor; auto.
Qed.

Lemma slice_key (s : jsstring) (a b : Z) : key_string s -> key_string (slice s a b).
Proof.
  unfold key_string, slice. intros H. apply Forall_take, Forall_drop, H.
Qed.

(** *** White-space variants collapse to the same string *)

Lemma trimEnd_unit (c : N) (s : jsstring) :
  is_space c = false -> trimEnd (c :: s) = c :: trimEnd s.
Proof. intros H. simpl. rewrite H. destruct (trimEnd s); reflexivity. Qed.

Lemma trimEnd_space (c : N) (s : jsstring) :
  is_space c = true ->
  trimEnd (c :: s) = match trimEnd s with [] => [] | t => c :: t end.
Proof. intros H. simpl. rewrite H. reflexivity. Qed.

Lemma trimEnd_run (r s : jsstring) :
  forallb is_space r = true ->
  trimEnd (r ++ s) = match trimEnd s with [] => [] | t => r ++ t end.
Proof.
  induction r as [|c r IH]; intros H.
  - simpl. destruct (trimEnd s); reflexivity.
  - simpl in H. apply andb_true_iff in H as [Hc Hr].
    change ((c :: r) ++ s) with (c :: (r ++ s)).
    rewrite (trimEnd_space c _ Hc), (IH Hr).
    destruct (trimEnd s) as [|x t]; [reflexivity|].
    destruct r; reflexivity.
Qed.

Lemma replace_space_runs_run (rep : jsstring) (flag : bool) (r t : jsstring) :
  r <> [] -> forallb is_space r = true ->
  replace_space_runs rep flag (r ++ t)
  = (if flag then [] else rep) ++ replace_space_runs rep true t.
Proof.
  revert flag. induction r as [|c r IH]; intros flag Hne H; [congruence|].
  simpl in H. apply andb_true_iff in H as [Hc Hr].
  simpl. rewrite Hc. destruct r as [|c' r'].
  - reflexivity.
  - rewrite (IH true) by (congruence || exact Hr). reflexivity.
Qed.

Lemma replace_space_runs_empty (rep : jsstring) (b : bool) (u : jsstring) :
  replace_space_runs rep b u = [] -> forallb is_space u = true.
Proof.
  revert b. induction u as [|c r IH]; intros b; [reflexivity|].
  simpl. destruct (is_space c); [|discriminate].
  intros H. apply app_eq_nil in H as [_ H]. exact (IH true H).
Qed.

Lemma trimEnd_all_space (t : jsstring) :
  forallb is_space (trimEnd t) = true -> trimEnd t = [].
Proof.
  induction t as [|c r IH]; [reflexivity|].
  simpl. destruct (trimEnd r) as [|x t'] eqn:E.
  - destruct (is_space c) eqn:Hc; [reflexivity|].
    simpl. rewrite Hc. discriminate.
  - intros H. change (forallb is_space (c :: x :: t'))
      with (is_space c && forallb is_space (x :: t')) in H.
    apply andb_true_iff in H as [_ H]. specialize (IH H). discriminate.
Qed.

Lemma replace_space_runs_nil (b : bool) (t : jsstring) :
  replace_space_runs [UNDERSCORE] b (trimEnd t) = [] -> trimEnd t = [].
Proof.
  intros H. apply trimEnd_all_space.
  exact (replace_space_runs_empty _ _ _ H).
Qed.

Lemma trim_then_collapse (s : jsstring) :
  replace_space_runs [UNDERSCORE] false (trim s)
  = replace_space_runs [UNDERSCORE] true (trimEnd s).
Proof.
  unfold trim. induction s as [|c r IH]; [reflexivity|].
  destruct (is_space c) eqn:Hc.
  - simpl trimStart. rewrite Hc, IH, (trimEnd_space c r Hc).
    destruct (trimEnd r) as [|x t]; [reflexivity|].
    simpl. rewrite Hc. reflexivity.
  - simpl trimStart. rewrite Hc, (trimEnd_unit c r Hc).
    simpl. rewrite Hc. reflexivity.
Qed.

Lemma space_variant_collapse (a b : jsstring) :
  space_variant a b ->
  forall flag,
    replace_space_runs [UNDERSCORE] flag (trimEnd a)
    = replace_space_runs [UNDERSCORE] flag (trimEnd b).
Proof.
  induction 1 as [|c a b Hc _ IH|r1 r2 a b Hn1 Hn2 Hs1 Hs2 _ IH]; intros flag.
  - reflexivity.
  - rewrite !trimEnd_unit by exact Hc. simpl. rewrite Hc, IH. reflexivity.
  - rewrite (trimEnd_run r1 a Hs1), (trimEnd_run r2 b Hs2).
    assert (Hnil : trimEnd a = [] <-> trimEnd b = []).
    { split; intros E0; pose proof (IH false) as E; rewrite E0 in E;
        simpl in E; [symmetry in E|]; apply replace_space_runs_nil in E;
        exact E. }
    pose proof (IH true) as Htrue.
    destruct (trimEnd a) as [|x t]; destruct (trimEnd b) as [|y u].
    + reflexivity.
    + destruct Hnil as [Hnil _]. specialize (Hnil eq_refl). discriminate.
    + destruct Hnil as [_ Hnil]. specialize (Hnil eq_refl). discriminate.
    + rewrite !replace_space_runs_run by assumption.
      rewrite Htrue. reflexivity.
Qed.

Lemma space_variant_refl (s : jsstring) : space_variant s s.
Proof.
  induction s as [|c r IH]; [constructor|].
  destruct (is_space c) eqn:Hc.
  - apply (sv_run [c] [c] r r); try discriminate; simpl; try rewrite Hc; auto.
  - apply sv_unit; assumption.
Qed.

Section NormalizeCacheKey.

(** The one fact about [toLowerCase] that is used: a string of lower-case
    ASCII letters, digits, [_] and [-] has no upper-case unit to map. *)
Variable toLowerCase : jsstring -> jsstring.
Hypothesis toLowerCase_key : forall s, key_string s -> toLowerCase s = s.

Lemma normalizeCacheKey_is_key (k : jsstring) :
  key_string (normalizeCacheKey toLowerCase k).
Proof. apply slice_key, replace_outside_is_key. Qed.

Lemma normalizeCacheKey_len (k : jsstring) :
  len (normalizeCacheKey toLowerCase k) <= 256.
Proof. apply slice_0_len_bound. lia. Qed.

Lemma normalizeCacheKey_fixed (k : jsstring) :
  key_string k -> len k <= 256 -> normalizeCacheKey toLowerCase k = k.
Proof.
  intros Hk Hl. unfold normalizeCacheKey, trim.
  rewrite (toLowerCase_key k Hk), (trimStart_key k Hk), (trimEnd_key k Hk),
    (replace_space_runs_key _ _ k Hk), (replace_outside_key _ k Hk).
  apply slice_0_all. exact Hl.
Qed.

Lemma normalizeCacheKey_variant (k k' : jsstring) :
  space_variant (toLowerCase k) (toLowerCase k') ->
  normalizeCacheKey toLowerCase k = normalizeCacheKey toLowerCase k'.
Proof.
  intros H. unfold normalizeCacheKey.
  rewrite !trim_then_collapse, (space_variant_collapse _ _ H true).
  reflexivity.
Qed.

End NormalizeCacheKey.

(** C9. [normalizeCacheKey] is idempotent; its output is at most 256 units
    long and made of [[a-z0-9_-]] only; and two inputs that, once
    lower-cased, differ only in their runs of white space (so in
    particular two inputs that differ only in letter case) get the same
    key.  [toLowerCase] is any case mapping that leaves strings of
    [[a-z0-9_-]] alone. *)
Theorem normalizeCacheKey_canonical (toLowerCase : jsstring -> jsstring)
    (k : jsstring) :
  (forall s, key_string s -> toLowerCase s = s) ->
  normalizeCacheKey toLowerCase (normalizeCacheKey toLowerCase k)
  = normalizeCacheKey toLowerCase k
  /\ len (normalizeCacheKey toLowerCase k) <= 256
  /\ key_string (normalizeCacheKey toLowerCase k)
  /\ (forall k', toLowerCase k = toLowerCase k' ->
        normalizeCacheKey toLowerCase k = normalizeCacheKey toLowerCase k')
  /\ (forall k', space_variant (toLowerCase k) (toLowerCase k') ->
        normalizeCacheKey toLowerCase k = normalizeCacheKey toLowerCase k').
Proof.
  intros Hlow. repeat split.
  - apply normalizeCacheKey_fixed.
    + exact Hlow.
    + apply normalizeCacheKey_is_key.
    + apply normalizeCacheKey_len.
  - apply normalizeCacheKey_len.
  - apply normalizeCacheKey_is_key.
  - intros k' E. apply normalizeCacheKey_variant. rewrite E.
    apply space_variant_refl.
  - intros k'. apply normalizeCacheKey_variant.
Qed.

Example space_variant_example :
  space_variant (js " hello   world ") (js "  hello world  ").
Proof.
  change (space_variant ([32%N] ++ js "hello   world ")
            ([32%N; 32%N] ++ js "hello world  ")).
  apply sv_run; try discriminate; try reflexivity.
  do 5 (apply sv_unit; [reflexivity|]).
  change (space_variant ([32%N; 32%N; 32%N] ++ js "world ")
            ([32%N] ++ js "world  ")).
  apply sv_run; try discriminate; try reflexivity.
  do 5 (apply sv_unit; [reflexivity|]).
  change (space_variant ([32%N] ++ []) ([32%N; 32%N] ++ [])).
  apply sv_run; try discriminate; try reflexivity.
  apply sv_nil.
Qed.

Lemma normalizeCacheKey_canonical_witness :
  normalizeCacheKey ascii_toLowerCase
    (normalizeCacheKey ascii_toLowerCase (js " Hello   World "))
  = normalizeCacheKey ascii_toLowerCase (js " Hello   World ")
  /\ normalizeCacheKey ascii_toLowerCase (js " Hello   World ")
     = normalizeCacheKey ascii_toLowerCase (js " hello   world ")
  /\ normalizeCacheKey ascii_toLowerCase (js " Hello   World ")
     = normalizeCacheKey ascii_toLowerCase (js "  HELLO world  ").
Proof.
  destruct (normalizeCacheKey_canonical ascii_toLowerCase
              (js " Hello   World ") ascii_toLowerCase_key)
    as (Hidem & _ & _ & Hcase & Hvar).
  split; [exact Hidem | split].
  - apply Hcase. reflexivity.
  - apply Hvar. exact space_variant_example.
Defined.

End WebSharedFacts.

Module WebSearchFacts.
Import JS JSFacts WebShared WebSearch Scenarios.

(** *** Provider failover *)

Lemma provider_fails_unusable (reply : FetchOutcome SearXNGResponse) :
  provider_fails reply -> usable_results reply = None.
Proof.
  intros [-> | [[body ->] | [-> | [-> | ->]]]]; reflexivity.
Qed.

Lemma provider_returns_usable (reply : FetchOutcome SearXNGResponse)
    (rs : list SearXNGResult) :
  provider_returns reply rs -> usable_results reply = Some rs.
Proof.
  intros [-> Hne]. destruct rs as [|r rs]; [congruence|].
  unfold usable_results. simpl response_results.
  destruct (Z.ltb_spec 0 (len (r :: rs))) as [_|H]; [reflexivity|].
  unfold len in H. simpl in H. lia.
Qed.

Section Loop.

Variable env : Env.
Variables (query : jsstring) (count_ : Z) (language : option jsstring)
  (timeoutSeconds : Z).

Let request_of (inst : jsstring) : Request :=
  SearchReq (searchRequest query language timeoutSeconds inst).

Let reply_of (inst : jsstring) : FetchOutcome SearXNGResponse :=
  search_reply env (searchRequest query language timeoutSeconds inst).

(** Failing providers are asked one after the other and the loop goes
    on with the rest. *)
Lemma try_instances_skip (pre rest : list jsstring) (w : World) :
  Forall (fun i => provider_fails (reply_of i)) pre ->
  exists w1,
    try_instances env query count_ language timeoutSeconds (pre ++ rest) w
    = try_instances env query count_ language timeoutSeconds rest w1
    /\ requests w1 = requests w ++ map request_of pre
    /\ SEARCH_CACHE w1 = SEARCH_CACHE w
    /\ now w1 = now w + foldr (fun i t => elapsed env (request_of i) + t) 0 pre.
Proof.
  intros H. revert w. induction H as [|i pre Hi _ IH]; intros w.
  - exists w. simpl. rewrite app_nil_r. repeat split; lia.
  - simpl. unfold bind at 1, fetch at 1.
    pose proof (provider_fails_unusable _ Hi) as Hu.
    unfold reply_of in Hu. rewrite Hu. clear Hu.
    destruct (IH {| now := now w + elapsed env (request_of i);
                    requests := requests w ++ [request_of i];
                    SEARCH_CACHE := SEARCH_CACHE w |})
      as (w1 & Hrun & Hreq & Hcache & Hnow).
    exists w1. split; [exact Hrun|]. simpl in *.
    rewrite Hreq, Hcache, Hnow, <- app_assoc. repeat split; lia.
Qed.

Lemma try_instances_failover (pre post : list jsstring) (nth : jsstring)
    (rs : list SearXNGResult) (w : World) :
  Forall (fun i => provider_fails (reply_of i)) pre ->
  provider_returns (reply_of nth) rs ->
  exists w',
    try_instances env query count_ language timeoutSeconds
      (pre ++ nth :: post) w
    = (Some (slice rs 0 count_, nth), w')
    /\ requests w' = requests w ++ map request_of (pre ++ [nth])
    /\ SEARCH_CACHE w' = SEARCH_CACHE w.
Proof.
  intros Hpre Hnth.
  destruct (try_instances_skip pre (nth :: post) w Hpre)
    as (w1 & Hrun & Hreq & Hcache & _).
  rewrite Hrun. simpl. unfold bind, fetch.
  fold (reply_of nth). rewrite (provider_returns_usable _ _ Hnth).
  eexists. split; [reflexivity|]. simpl.
  rewrite Hreq, Hcache, map_app, <- app_assoc. split; reflexivity.
Qed.

Lemma try_instances_exhausted (pool : list jsstring) (w : World) :
  Forall (fun i => provider_fails (reply_of i)) pool ->
  exists w',
    try_instances env query count_ language timeoutSeconds pool w = (None, w')
    /\ requests w' = requests w ++ map request_of pool
    /\ SEARCH_CACHE w' = SEARCH_CACHE w.
Proof.
  intros H. destruct (try_instances_skip pool [] w H)
    as (w1 & Hrun & Hreq & Hcache & _).
  rewrite app_nil_r in Hrun. exists w1. rewrite Hrun. auto.
Qed.

End Loop.

(** C5. Whatever order the shuffle yields, the providers are asked one by
    one in that order; if the first N-1 of them fail (the request rejects,
    the status is not 2xx, the body does not parse or holds no result) and
    the Nth answers with results, [searchWithSearXNG] returns the Nth
    provider and its results cut by [slice(0, count)], which are at most
    [count] for a non-negative [count]; the requests issued are exactly
    those to the first N providers, in order. *)
Theorem searchWithSearXNG_failover (env : Env) (query : jsstring) (count_ : Z)
    (language : option jsstring) (timeoutSeconds : Z)
    (pre post : list jsstring) (nth : jsstring) (rs : list SearXNGResult)
    (w : World) :
  shuffle env SEARXNG_INSTANCES = pre ++ nth :: post ->
  Forall (fun i => provider_fails
            (search_reply env (searchRequest query language timeoutSeconds i)))
    pre ->
  provider_returns
    (search_reply env (searchRequest query language timeoutSeconds nth)) rs ->
  exists w',
    searchWithSearXNG env query count_ language timeoutSeconds w
    = (Some (slice rs 0 count_, nth), w')
    /\ requests w'
       = requests w
           ++ map (fun i => SearchReq
                     (searchRequest query language timeoutSeconds i))
                (pre ++ [nth])
    /\ (0 <= count_ ->
        slice rs 0 count_ = take (Z.to_nat count_) rs
        /\ len (slice rs 0 count_) <= count_).
Proof.
  intros Hshuffle Hpre Hnth. unfold searchWithSearXNG. rewrite Hshuffle.
  destruct (try_instances_failover env query count_ language timeoutSeconds
              pre post nth rs w Hpre Hnth) as (w' & Hrun & Hreq & _).
  exists w'. split; [exact Hrun|]. split; [exact Hreq|].
  intros Hc. split; [apply slice_0_take | apply slice_0_len_bound]; exact Hc.
Qed.

Lemma searchWithSearXNG_failover_witness :
  exists w',
    searchWithSearXNG third_answers (js "test") 2 None 30 (start_world 0)
    = (Some ([hit "one"; hit "two"], js "https://search.sapti.me"), w')
    /\ requests w'
       = map (fun i => SearchReq (searchRequest (js "test") None 30 i))
           [js "https://searx.be"; js "https://searx.dresden.network";
            js "https://search.sapti.me"].
Proof.
  destruct (searchWithSearXNG_failover third_answers (js "test") 2 None 30
              [js "https://searx.be"; js "https://searx.dresden.network"]
              (drop 3 SEARXNG_INSTANCES)
              (js "https://search.sapti.me")
              [hit "one"; hit "two"; hit "three"]
              (start_world 0))
    as (w' & Hrun & Hreq & _).
  - reflexivity.
  - constructor; [left; reflexivity |].
    constructor; [right; left; exists None; reflexivity |].
    constructor.
  - split; [reflexivity | discriminate].
  - exists w'. split; [exact Hrun | exact Hreq].
Defined.

(** *** The empty result *)

(** C6. When the cache holds nothing for the key of the query, so that
    the providers are consulted, and every provider in the shuffled order
    fails or returns zero results, [runWebSearch] returns (it does not
    throw) the payload with [results: []], [count: 0] and the error
    string, and the cache then holds exactly that payload under the key
    of the query, stamped with the time of the write. *)
Theorem runWebSearch_no_results (env : Env) (params : SearchParams)
    (w : World) :
  readCache (entries (SEARCH_CACHE w)) (cacheKeyOf env params) = None ->
  Forall (fun i => provider_fails
            (search_reply env
               (searchRequest (param_query params) (param_language params)
                  (param_timeoutSeconds params) i)))
    (shuffle env SEARXNG_INSTANCES) ->
  exists payload w',
    runWebSearch env params w = (payload, w')
    /\ results payload = []
    /\ count payload = 0
    /\ error payload = Some (js "No results found from any SearXNG instance")
    /\ query payload = param_query params
    /\ cached payload = None
    /\ entries (SEARCH_CACHE w')
       = <[cacheKeyOf env params := mkEntry payload (now w')]>
           (entries (SEARCH_CACHE w))
    /\ readCache (entries (SEARCH_CACHE w')) (cacheKeyOf env params)
       = Some (mkEntry payload (now w')).
Proof.
  intros Hmiss Hfail. unfold runWebSearch, searchWithSearXNG.
  unfold bind at 1, read_search_cache. rewrite Hmiss.
  unfold bind at 1, date_now at 1. unfold bind at 1.
  destruct (try_instances_exhausted env (param_query params)
              (param_count params) (param_language params)
              (param_timeoutSeconds params) _ w Hfail)
    as (w1 & Hrun & _ & Hcache).
  rewrite Hrun. unfold bind, date_now, write_search_cache, ret.
  eexists _, _. split; [reflexivity|]. simpl. rewrite Hcache.
  repeat split; try reflexivity.
  unfold readCache. rewrite lookup_insert_eq. reflexivity.
Qed.

Lemma runWebSearch_no_results_witness :
  exists payload w',
    runWebSearch all_unreachable (test_query 3600000) (start_world 0)
    = (payload, w')
    /\ results payload = []
    /\ count payload = 0
    /\ error payload = Some (js "No results found from any SearXNG instance")
    /\ readCache (entries (SEARCH_CACHE w'))
         (cacheKeyOf all_unreachable (test_query 3600000))
       = Some (mkEntry payload (now w')).
Proof.
  destruct (runWebSearch_no_results all_unreachable (test_query 3600000)
              (start_world 0))
    as (payload & w' & Hrun & Hres & Hcount & Herr & _ & _ & _ & Hread).
  - reflexivity.
  - repeat constructor.
  - exists payload, w'. repeat split; assumption.
Defined.

(** *** Content extraction *)

(** C7. When the extraction service answers with a text, the step returns
    it unchanged if it has at most 5000 units; if it is longer, the step
    returns its first 5000 units followed by the marker, which comes on
    top of the 5000 units of content. *)
Theorem fetchWithJinaReader_truncation (env : Env) (target : jsstring)
    (timeoutSeconds : Z) (text : jsstring) (w : World) :
  jina_reply env {| req_jinaUrl := jinaUrl target;
                    req_jinaTimeoutMs := timeoutSeconds * 1000 |}
  = Response true (Some text) ->
  exists r w',
    fetchWithJinaReader env target timeoutSeconds w = (Some r, w')
    /\ (5000 < len text ->
        r = take (Z.to_nat 5000) text ++ LF :: js "...[content truncated]"
        /\ len (take (Z.to_nat 5000) text) = 5000
        /\ len r = 5000 + len (LF :: js "...[content truncated]"))
    /\ (len text <= 5000 -> r = text).
Proof.
  intros Hreply. unfold fetchWithJinaReader, bind, fetch. rewrite Hreply.
  eexists _, _. split; [reflexivity|]. unfold limit_content, MAX_CONTENT_LENGTH.
  split; intros Hlen.
  - destruct (Z.ltb_spec 5000 (len text)) as [_|?]; [|lia].
    rewrite slice_0_take by lia.
    assert (Hcut : len (take (Z.to_nat 5000) text) = 5000).
    { unfold len in *. rewrite length_take. lia. }
    split; [reflexivity|]. split; [exact Hcut|].
    rewrite len_app, Hcut. reflexivity.
  - destruct (Z.ltb_spec 5000 (len text)) as [?|_]; [lia|]. reflexivity.
Qed.

Lemma fetchWithJinaReader_truncation_witness :
  exists r w',
    fetchWithJinaReader long_page (js "https://example.org/") 10
      (start_world 0) = (Some r, w')
    /\ r = repeat 97%N (Z.to_nat 5000) ++ LF :: js "...[content truncated]"
    /\ len r = 5023.
Proof.
  destruct (fetchWithJinaReader_truncation long_page
              (js "https://example.org/") 10
              (repeat 97%N (Z.to_nat 5001)) (start_world 0) eq_refl)
    as (r & w' & Hrun & Hlong & _).
  assert (Hlen : 5000 < len (repeat 97%N (Z.to_nat 5001))).
  { unfold len. rewrite repeat_length. lia. }
  destruct (Hlong Hlen) as (Hr & _ & Hl).
  exists r, w'. split; [exact Hrun|]. split.
  - rewrite Hr. vm_compute. reflexivity.
  - rewrite Hl. reflexivity.
Defined.

Example short_page_unchanged :
  limit_content (js "short page") = js "short page".
Proof. reflexivity. Qed.

(** *** Cache reads *)

(** [readCache] hands out whatever the map holds: neither the clock nor
    a time to live enters. *)
Lemma readCache_present {T} (cache : gmap jsstring (CacheEntry T))
    (key : jsstring) (entry : CacheEntry T) :
  cache !! key = Some entry -> readCache cache key = Some entry.
Proof. intros H. unfold readCache. rewrite H. reflexivity. Qed.

(** A stored entry is a hit for [runWebSearch] at any time and for any
    configured time to live: the payload comes back marked [cached], no
    request is issued and the world is left as it was. *)
Lemma runWebSearch_hit (env : Env) (params : SearchParams) (w : World)
    (entry : CacheEntry Payload) :
  entries (SEARCH_CACHE w) !! cacheKeyOf env params = Some entry ->
  runWebSearch env params w = (mark_cached (value entry), w).
Proof.
  intros H. unfold runWebSearch, bind, read_search_cache.
  rewrite (readCache_present _ _ _ H). reflexivity.
Qed.

(** The deferred cleanup leaves an entry alone while it is younger than
    the time to live the timer was scheduled with. *)
Lemma cleanup_keeps_young {T} (t : Z) (key : jsstring) (ttlMs : Z)
    (cache : gmap jsstring (CacheEntry T)) (entry : CacheEntry T) :
  cache !! key = Some entry -> t - timestamp entry < ttlMs ->
  cleanup t key ttlMs cache = cache.
Proof.
  intros H Hage. unfold cleanup. rewrite H.
  destruct (Z.leb_spec ttlMs (t - timestamp entry)); [lia | reflexivity].
Qed.

Lemma cleanup_drops_old {T} (t : Z) (key : jsstring) (ttlMs : Z)
    (cache : gmap jsstring (CacheEntry T)) (entry : CacheEntry T) :
  cache !! key = Some entry -> ttlMs <= t - timestamp entry ->
  cleanup t key ttlMs cache !! key = None.
Proof.
  intros H Hage. unfold cleanup. rewrite H.
  destruct (Z.leb_spec ttlMs (t - timestamp entry)); [|lia].
  apply lookup_delete_eq.
Qed.

(** C1, evaluated.  The payload cached for the query ["test"] at time 200
    is served as a hit (a) one hour and one millisecond later to a call
    configured with a time to live of one hour, the cleanup being due but
    not yet run, and (b) two minutes later to a call configured with a
    time to live of one minute, every due timer having run.  In both
    cases [isCacheValid] rejects the entry at that time, and no request
    is issued. *)
Theorem runWebSearch_serves_expired_entry :
  (exists entry,
     readCache (entries (SEARCH_CACHE cleanup_pending))
       (cacheKeyOf all_unreachable (test_query 3600000)) = Some entry
     /\ now cleanup_pending - timestamp entry = 3600001
     /\ isCacheValid (now cleanup_pending) (Some entry) 3600000 = false
     /\ runWebSearch all_unreachable (test_query 3600000) cleanup_pending
        = (mark_cached (value entry), cleanup_pending))
  /\
  (exists entry,
     readCache (entries (SEARCH_CACHE two_minutes_later))
       (cacheKeyOf all_unreachable (test_query 60000)) = Some entry
     /\ now two_minutes_later - timestamp entry = 120000
     /\ isCacheValid (now two_minutes_later) (Some entry) 60000 = false
     /\ runWebSearch all_unreachable (test_query 60000) two_minutes_later
        = (mark_cached (value entry), two_minutes_later)).
Proof.
  split.
  - assert (H : exists entry,
               entries (SEARCH_CACHE cleanup_pending)
                 !! cacheKeyOf all_unreachable (test_query 3600000)
               = Some entry /\ timestamp entry = 200).
    { eexists. split; [vm_compute; reflexivity | reflexivity]. }
    destruct H as (entry & Hlook & Hstamp). exists entry.
    split; [apply readCache_present; exact Hlook|].
    split; [rewrite Hstamp; reflexivity|].
    split; [unfold isCacheValid; rewrite Hstamp; reflexivity|].
    apply runWebSearch_hit. exact Hlook.
  - assert (H : exists entry,
               entries (SEARCH_CACHE two_minutes_later)
                 !! cacheKeyOf all_unreachable (test_query 60000)
               = Some entry /\ timestamp entry = 200).
    { eexists. split; [vm_compute; reflexivity | reflexivity]. }
    destruct H as (entry & Hlook & Hstamp). exists entry.
    split; [apply readCache_present; exact Hlook|].
    split; [rewrite Hstamp; reflexivity|].
    split; [unfold isCacheValid; rewrite Hstamp; reflexivity|].
    apply runWebSearch_hit. exact Hlook.
Qed.

End WebSearchFacts.

Module BrowserFacts.
Import JS Browser Scenarios.

(** [createSession] looks at the shutdown flag and at the outcome of the
    launch, never at the number of sessions it tracks. *)
Lemma createSession_launched (eng : Engine) (svc : BrowserService)
    (sessionId : option jsstring) (b c p : nat) :
  isShuttingDown svc = false -> launch eng = Ok (b, c, p) ->
  exists session,
    createSession eng svc sessionId
    = (Ok session,
       {| sessions := <[id session := session]> (sessions svc);
          isShuttingDown := false |}).
Proof.
  intros Hup Hlaunch. unfold createSession. rewrite Hup, Hlaunch.
  eexists (mkSession b c p _). simpl. reflexivity.
Qed.

(** A session under a fresh identifier makes the tracked set grow,
    whatever its size was. *)
Lemma createSession_grows (eng : Engine) (svc : BrowserService)
    (key : jsstring) (b c p : nat) :
  isShuttingDown svc = false -> launch eng = Ok (b, c, p) ->
  key <> [] -> sessions svc !! key = None ->
  size (sessions (snd (createSession eng svc (Some key))))
  = S (size (sessions svc)).
Proof.
  intros Hup Hlaunch Hkey Hfresh. unfold createSession.
  rewrite Hup, Hlaunch. destruct key as [|k0 key]; [congruence|].
  simpl. apply map_size_insert_None. exact Hfresh.
Qed.

(** C2, evaluated.  With one session tracked, which is the configured
    maximum, a further [createSession] on a working engine returns a
    session and the service tracks two. *)
Theorem createSession_beyond_maximum :
  size (sessions one_session) = DEFAULT_maxBrowserSessions
  /\ isShuttingDown one_session = false
  /\ exists session svc',
       createSession (engine_up 2 "session_2_b") one_session None
       = (Ok session, svc')
       /\ id session = js "session_2_b"
       /\ size (sessions svc') = 2%nat.
Proof.
  split; [vm_compute; reflexivity|]. split; [reflexivity|].
  eexists _, _. split; [reflexivity|]. split; [reflexivity|].
  vm_compute. reflexivity.
Qed.

(** [closeSession] never throws. *)
Lemma closeSession_ok (eng : Engine) (svc : BrowserService)
    (sessionId : option jsstring) :
  fst (closeSession eng svc sessionId) = Ok tt.
Proof.
  unfold closeSession. destruct (get_session svc sessionId); [|reflexivity].
  destruct (close_context eng _); [destruct (close_browser eng _)|];
    reflexivity.
Qed.

(** On an identifier that is not tracked it changes nothing. *)
Lemma closeSession_unknown (eng : Engine) (svc : BrowserService)
    (sessionId : option jsstring) :
  get_session svc sessionId = None ->
  closeSession eng svc sessionId = (Ok tt, svc).
Proof. intros H. unfold closeSession. rewrite H. reflexivity. Qed.

(** After it the identifier is not tracked, even when a close failed. *)
Lemma closeSession_removes (eng : Engine) (svc : BrowserService)
    (sessionId : option jsstring) :
  get_session (snd (closeSession eng svc sessionId)) sessionId = None.
Proof.
  unfold closeSession. destruct (get_session svc sessionId) eqn:E.
  - destruct sessionId as [k|]; [|discriminate].
    destruct (close_context eng _); [destruct (close_browser eng _)|];
      simpl; apply lookup_delete_eq.
  - exact E.
Qed.

End BrowserFacts.

Module GatewayFacts.
Import JS JSFacts Browser Gateway Scenarios BrowserFacts.

Example ping_pong :
  sent (handleWebSocketMessage (engine_up 1 "s") (mkGateway None [])
          (mkMessage (js "ping") (Some (js "1")) None))
  = [mkReply (js "pong") (Some (js "1")) None None].
Proof. reflexivity. Qed.

Example create_disabled :
  sent (handleWebSocketMessage (engine_up 1 "s") (mkGateway None [])
          (mkMessage (js "browser.create") (Some (js "7")) None))
  = [mkReply (js "error") (Some (js "7")) None
       (Some (js "Browser service is disabled"))].
Proof. reflexivity. Qed.

(** C3. With the browser service enabled, a [browser.close] request for
    any session identifier (tracked, unknown, already closed, or not a
    string at all) is answered by [browser.closed] with [success: true]
    and the identifier of the request, and by nothing else;
    [closeSession] does not throw, leaves the service as it is when the
    identifier is not tracked, and leaves the identifier untracked in
    every case, so that a second close is again a success and changes
    nothing. *)
Theorem browser_close_succeeds (eng eng' : Engine) (svc : BrowserService)
    (outbox : list Reply) (request_id sessionId target : option jsstring) :
  let request :=
    mkMessage (js "browser.close") request_id
      (Some (mkRequestPayload sessionId target)) in
  let closed := js "browser.closed" in
  let gw := handleWebSocketMessage eng (mkGateway (Some svc) outbox) request in
  sent gw
  = outbox ++ [mkReply closed request_id (Some (SuccessPayload true)) None]
  /\ browserService gw = Some (snd (closeSession eng svc sessionId))
  /\ fst (closeSession eng svc sessionId) = Ok tt
  /\ (get_session svc sessionId = None ->
      closeSession eng svc sessionId = (Ok tt, svc))
  /\ handleWebSocketMessage eng' gw request
     = {| browserService := browserService gw;
          sent := sent gw ++ [mkReply closed request_id
                                (Some (SuccessPayload true)) None] |}.
Proof.
  intros request closed gw.
  assert (Hgw : gw = {| browserService :=
                          Some (snd (closeSession eng svc sessionId));
                        sent := outbox ++ [mkReply closed request_id
                                  (Some (SuccessPayload true)) None] |}).
  { unfold gw, handleWebSocketMessage. simpl.
    pose proof (closeSession_ok eng svc sessionId) as Hok.
    destruct (closeSession eng svc sessionId) as [r svc']. simpl in Hok.
    subst r. reflexivity. }
  rewrite Hgw. simpl. repeat split.
  - apply closeSession_ok.
  - apply closeSession_unknown.
  - unfold handleWebSocketMessage. simpl.
    rewrite (closeSession_unknown eng' _ sessionId
               (closeSession_removes eng svc sessionId)).
    reflexivity.
Qed.

Lemma browser_close_succeeds_witness :
  get_session one_session (Some (js "no-such-session")) = None
  /\ closeSession (engine_up 3 "s") one_session (Some (js "no-such-session"))
     = (Ok tt, one_session)
  /\ sent (handleWebSocketMessage (engine_up 3 "s")
             (mkGateway (Some one_session) [])
             (mkMessage (js "browser.close") (Some (js "42"))
                (Some (mkRequestPayload (Some (js "no-such-session")) None))))
     = [mkReply (js "browser.closed") (Some (js "42"))
          (Some (SuccessPayload true)) None].
Proof.
  assert (H : get_session one_session (Some (js "no-such-session")) = None)
    by (vm_compute; reflexivity).
  destruct (browser_close_succeeds (engine_up 3 "s") (engine_up 3 "s")
              one_session [] (Some (js "42"))
              (Some (js "no-such-session")) None)
    as (Hsent & _ & _ & Hnoop & _).
  split; [exact H|]. split; [exact (Hnoop H) | exact Hsent].
Defined.

(** C4. A [browser.content] request is answered by exactly one reply
    carrying the identifier of the request: either an error, or
    [browser.content] with a content of at most 5000 units, which is the
    first 5000 units of the text read from the page. *)
Theorem browser_content_capped (eng : Engine) (gw : GatewayServer)
    (request_id : option jsstring) (fields : option RequestPayload) :
  exists reply,
    sent (handleWebSocketMessage eng gw
            (mkMessage (js "browser.content") request_id fields))
    = sent gw ++ [reply]
    /\ reply_id reply = request_id
    /\ ((reply_type reply = js "error" /\ reply_payload reply = None)
        \/ (reply_type reply = js "browser.content"
            /\ exists svc text,
                 browserService gw = Some svc
                 /\ getTextContent eng svc (fields ≫= sessionId) = Ok text
                 /\ reply_payload reply
                    = Some (ContentPayload (take (Z.to_nat 5000) text))
                 /\ len (take (Z.to_nat 5000) text) <= 5000)).
Proof.
  unfold handleWebSocketMessage. simpl.
  destruct (browserService gw) as [svc|].
  2:{ eexists. split; [reflexivity|]. split; [reflexivity|].
      left. split; reflexivity. }
  destruct fields as [fields|]; simpl.
  2:{ eexists. split; [reflexivity|]. split; [reflexivity|].
      left. split; reflexivity. }
  destruct (getTextContent eng svc (sessionId fields)) as [text|e] eqn:E.
  - eexists. split; [reflexivity|]. split; [reflexivity|].
    right. split; [reflexivity|]. exists svc, text.
    split; [reflexivity|]. split; [exact E|]. simpl.
    unfold CONTENT_LIMIT. rewrite slice_0_take by lia.
    split; [reflexivity|].
    rewrite <- (slice_0_take text 5000) by lia.
    apply slice_0_len_bound. lia.
  - eexists. split; [reflexivity|]. split; [reflexivity|].
    left. split; reflexivity.
Qed.

Example long_page_content :
  exists content,
    sent (handleWebSocketMessage (engine_up 1 "s")
            (mkGateway (Some one_session) [])
            (mkMessage (js "browser.content") (Some (js "9"))
               (Some (mkRequestPayload (Some (js "session_1_a")) None))))
    = [mkReply (js "browser.content") (Some (js "9"))
         (Some (ContentPayload content)) None]
    /\ len content = 5000.
Proof. eexists. split; vm_compute; reflexivity. Qed.

End GatewayFacts.

(* ===================================================================== *)
(** * Part III: further properties of the code                            *)
(* ===================================================================== *)

Module CacheFacts.
Import JS JSFacts WebShared.

Lemma readCache_lookup {T} (cache : gmap jsstring (CacheEntry T))
    (key : jsstring) : readCache cache key = cache !! key.
Proof. unfold readCache. destruct (cache !! key); reflexivity. Qed.

(** X1. A write is read back with its value and the time of the write, and
    the other keys read as before; the entry passes [isCacheValid]
    exactly while it is younger than the time to live asked about. *)
Theorem writeCache_then_readCache {T} (t0 : Z) (cache : Cache T)
    (key other : jsstring) (v : T) (ttlMs t ttl' : Z) :
  let written := entries (writeCache t0 cache key v ttlMs) in
  readCache written key = Some (mkEntry v t0)
  /\ (other <> key -> readCache written other = readCache (entries cache) other)
  /\ (isCacheValid t (readCache written key) ttl' = true <-> t - t0 < ttl').
Proof.
  intros written. unfold written, writeCache. simpl. rewrite !readCache_lookup.
  rewrite lookup_insert_eq. repeat split.
  - intros Hne. apply lookup_insert_ne. congruence.
  - simpl. intros H. apply Z.ltb_lt in H. exact H.
  - simpl. intros H. apply Z.ltb_lt. exact H.
Qed.

Lemma writeCache_then_readCache_witness :
  js "b" <> js "a"
  /\ readCache (entries (writeCache 5 (mkCache ∅ []) (js "a") 7%nat 100))
       (js "b") = None
  /\ isCacheValid 104 (readCache
                         (entries (writeCache 5 (mkCache ∅ []) (js "a") 7%nat 100))
                         (js "a")) 100 = true.
Proof.
  assert (Hne : js "b" <> js "a") by discriminate.
  destruct (writeCache_then_readCache 5 (mkCache ∅ []) (js "a") (js "b")
              7%nat 100 104 100) as (_ & Hother & Hvalid).
  split; [exact Hne|]. split.
  - rewrite (Hother Hne). reflexivity.
  - apply Hvalid. lia.
Defined.







(** X4. An entry stays through the timer phase as long as it is younger than
    the time to live of every pending cleanup for its key. *)
Theorem young_entry_survives {T} (t : Z) (cache : Cache T) (key : jsstring)
    (entry : CacheEntry T) :
  entries cache !! key = Some entry ->
  Forall (fun tm => timer_key tm = key -> t - timestamp entry < timer_ttl tm)
    (timers cache) ->
  readCache (entries (run_due_timers t cache)) key = Some entry.
Proof.
  intros Hin Hyoung. rewrite readCache_lookup. unfold run_due_timers. simpl.
  generalize dependent (entries cache).
  induction Hyoung as [|tm ts Htm _ IH]; intros m Hin; [exact Hin|].
  rewrite filter_cons. destruct (decide (due tm <= t)); [|apply IH; exact Hin].
  simpl. apply IH. unfold cleanup.
  destruct (m !! timer_key tm) as [e|] eqn:E; [|exact Hin].
  destruct (Z.leb_spec (timer_ttl tm) (t - timestamp e)) as [Hold|_];
    [|exact Hin].
  destruct (decide (timer_key tm = key)) as [Heq|Hne].
  - rewrite Heq in E. rewrite Hin in E. inversion E; subst e.
    specialize (Htm Heq). lia.
  - rewrite lookup_delete_ne by exact Hne. exact Hin.
Qed.

Lemma young_entry_survives_witness :
  readCache
    (entries (run_due_timers 104
                (writeCache 5 (mkCache ∅ []) (js "a") 7%nat 100)))
    (js "a") = Some (mkEntry 7%nat 5).
Proof.
  apply (young_entry_survives 104
           (writeCache 5 (mkCache ∅ []) (js "a") 7%nat 100) (js "a")).
  - vm_compute. reflexivity.
  - constructor; [simpl; intros _; lia | constructor].
Defined.

End CacheFacts.

Module WebSharedRestFacts.
Import JS JSFacts Numbers Browser WebSharedRest.

(** *** Configured limits *)

Lemma clamped_floor (hi : Z) (q : Q) :
  1 <= hi ->
  1 <= Qfloor (Qmax 1 (Qmin (inject_Z hi) q)) <= hi.
Proof.
  intros Hhi. split.
  - change 1 with (Qfloor (inject_Z 1)). apply Qfloor_resp_le.
    apply Q.le_max_l.
  - rewrite <- (Qfloor_Z hi) at 2. apply Qfloor_resp_le.
    apply Q.max_lub.
    + change 1%Q with (inject_Z 1). rewrite <- Zle_Qle. exact Hhi.
    + apply Q.le_min_l.
Qed.

Lemma clamped_inside (hi : Z) (q : Q) :
  (1 <= q)%Q -> (q <= inject_Z hi)%Q ->
  Qfloor (Qmax 1 (Qmin (inject_Z hi) q)) = Qfloor q.
Proof.
  intros Hlo Hhi. apply Qfloor_comp.
  rewrite (Q.min_r _ _ Hhi). apply Q.max_r. exact Hlo.
Qed.

(** X5. A finite configured value is clamped and rounded down: the timeout
    lies in [1, 120] seconds and the time to live is a whole number of
    minutes in [1, 1440], in milliseconds; a value already in range is
    only rounded down.  A missing, NaN or infinite value gives the
    default, as it is. *)
Theorem resolve_configured_limits (q : Q) (d : Z) :
  1 <= resolveTimeoutSeconds (Some (Finite q)) d <= 120
  /\ (exists minutes, 1 <= minutes <= 1440
        /\ resolveCacheTtlMs (Some (Finite q)) d = minutes * 60000)
  /\ ((1 <= q)%Q -> (q <= 120)%Q ->
      resolveTimeoutSeconds (Some (Finite q)) d = Qfloor q)
  /\ (forall configured,
        configured = None \/ configured = Some NaN
        \/ (exists s, configured = Some (Infinity s)) ->
        resolveTimeoutSeconds configured d = d
        /\ resolveCacheTtlMs configured d = d * 60000).
Proof.
  unfold resolveTimeoutSeconds, resolveCacheTtlMs, MAX_TIMEOUT_SECONDS,
    MAX_CACHE_TTL_MINUTES. repeat split.
  - apply (clamped_floor 120 q). lia.
  - apply (clamped_floor 120 q). lia.
  - exists (Qfloor (Qmax 1 (Qmin (inject_Z 1440) q))). split.
    + apply (clamped_floor 1440 q). lia.
    + lia.
  - intros Hlo Hhi. apply (clamped_inside 120 q); assumption.
  - destruct H as [-> | [-> | [s ->]]]; reflexivity.
  - destruct H as [-> | [-> | [s ->]]]; lia.
Qed.

Lemma resolve_configured_limits_witness :
  resolveTimeoutSeconds (Some (Finite (5 # 2))) 30 = 2
  /\ resolveTimeoutSeconds (Some (Infinity false)) 30 = 30.
Proof.
  destruct (resolve_configured_limits (5 # 2) 30) as (_ & _ & Hin & Hdef).
  split.
  - rewrite Hin; [reflexivity | discriminate | discriminate].
  - apply (Hdef (Some (Infinity false))). right. right. exists false.
    reflexivity.
Defined.

(** *** Reading a response body *)

Lemma body_bytes_some (v : list Byte.byte)
    (rest : list (option (list Byte.byte))) :
  body_bytes (Some v :: rest) = v ++ body_bytes rest.
Proof. reflexivity. Qed.

Lemma body_bytes_none (rest : list (option (list Byte.byte))) :
  body_bytes (None :: rest) = body_bytes rest.
Proof. reflexivity. Qed.

Lemma read_chunks_spec (maxBytes : Z) (stream : list (option (list Byte.byte)))
    (chunks : list (list Byte.byte)) (b : Z) :
  exists cs,
    read_chunks maxBytes stream chunks b
    = (cs, b + Z.max 0 (Z.min (maxBytes - b) (len (body_bytes stream))),
       (b <? maxBytes) && (maxBytes - b <=? len (body_bytes stream)))
    /\ concat cs
       = concat chunks ++ take (Z.to_nat (maxBytes - b)) (body_bytes stream).
Proof.
  revert chunks b. induction stream as [|read rest IH]; intros chunks b.
  - exists chunks. change (body_bytes []) with (@nil Byte.byte).
    rewrite take_nil, app_nil_r. split; [|reflexivity].
    change (len (@nil Byte.byte)) with 0. cbn [read_chunks].
    f_equal; [f_equal; lia|].
    destruct (Z.ltb_spec b maxBytes); destruct (Z.leb_spec (maxBytes - b) 0);
      simpl; try reflexivity; lia.
  - cbn [read_chunks].
    pose proof (len_nonneg (body_bytes (read :: rest))) as Hdata.
    destruct (Z.ltb_spec b maxBytes) as [Hlt|Hge].
    2:{ exists chunks. split.
        - f_equal. f_equal. lia.
        - replace (Z.to_nat (maxBytes - b)) with 0%nat by lia.
          rewrite take_0, app_nil_r. reflexivity. }
    destruct read as [v|].
    2:{ rewrite body_bytes_none in *.
        destruct (IH chunks b) as (cs & Hrun & Hcat). exists cs.
        rewrite Hrun. destruct (Z.ltb_spec b maxBytes); [|lia].
        split; [reflexivity | exact Hcat]. }
    rewrite body_bytes_some in *. rewrite len_app in *.
    pose proof (len_nonneg v) as Hv.
    pose proof (len_nonneg (body_bytes rest)) as Hrest.
    rewrite slice_0_take by lia.
    destruct (Z.leb_spec maxBytes (b + Z.min (len v) (maxBytes - b)))
      as [Hfull|Hmore].
    + exists (chunks ++ [take (Z.to_nat (Z.min (len v) (maxBytes - b))) v]).
      split.
      * f_equal; [f_equal; lia|].
        destruct (Z.leb_spec (maxBytes - b)
                    (len v + len (body_bytes rest))); [reflexivity|lia].
      * rewrite concat_app. cbn [concat]. rewrite app_nil_r. f_equal.
        rewrite Z.min_r by lia. rewrite take_app_le; [reflexivity|].
        unfold len in *. lia.
    + rewrite Z.min_l in * by lia.
      destruct (IH (chunks ++ [take (Z.to_nat (len v)) v]) (b + len v))
        as (cs & Hrun & Hcat).
      exists cs. rewrite Hrun. split.
      * f_equal; [f_equal; lia|].
        destruct (Z.ltb_spec (b + len v) maxBytes); [|lia]. cbn [andb].
        destruct (Z.leb_spec (maxBytes - (b + len v))
                    (len (body_bytes rest)));
          destruct (Z.leb_spec (maxBytes - b)
                      (len v + len (body_bytes rest)));
          try reflexivity; lia.
      * rewrite Hcat, concat_app. cbn [concat]. rewrite app_nil_r, <- app_assoc.
        f_equal. rewrite take_ge by (unfold len in *; lia).
        rewrite take_app_ge by (unfold len in *; lia).
        f_equal. f_equal. unfold len in *. lia.
Qed.

(** X6. [readResponseText] hands the decoder the first [maxBytes] bytes of
    the body and counts them; it reports a truncation as soon as the body
    holds at least [maxBytes] bytes, also when it holds exactly that
    many, and with a limit of zero or less it reads nothing and reports
    no truncation. *)
Theorem readResponseText_limit (decode : list Byte.byte -> jsstring)
    (stream : list (option (list Byte.byte))) (maxBytes : Z) :
  let data := body_bytes stream in
  let r := readResponseText decode (Some stream) (Some maxBytes) in
  text r = decode (take (Z.to_nat maxBytes) data)
  /\ bytesRead r = Z.max 0 (Z.min maxBytes (len data))
  /\ truncated r = (0 <? maxBytes) && (maxBytes <=? len data).
Proof.
  intros data r. unfold r, readResponseText.
  destruct (read_chunks_spec maxBytes stream [] 0) as (cs & Hrun & Hcat).
  rewrite Hrun. simpl. rewrite Hcat. simpl.
  rewrite !Z.sub_0_r. repeat split.
Qed.

Example readResponseText_exact_fit :
  let body := [Some [Byte.x61; Byte.x62]; None; Some [Byte.x63]] in
  truncated (readResponseText (fun _ => []) (Some body) (Some 3)) = true
  /\ bytesRead (readResponseText (fun _ => []) (Some body) (Some 3)) = 3
  /\ truncated (readResponseText (fun _ => []) (Some body) (Some 4)) = false.
Proof. repeat split. Qed.

End WebSharedRestFacts.

Module RetryFacts.
Import JS Browser WebSharedRest.

(** The delays of a run with [n] sleeps: the first is [retryDelayMs],
    each further one is [backoffMultiplier] times the one before. *)
Lemma backoff_shift (delay mult : Z) (n : nat) :
  delay :: map (fun j : nat => delay * mult * mult ^ Z.of_nat j) (seq 0 n)
  = map (fun j : nat => delay * mult ^ Z.of_nat j) (seq 0 (S n)).
Proof.
  cbn [seq map]. f_equal; [cbn; lia|].
  rewrite <- seq_shift, map_map. apply map_ext. intros j.
  rewrite Nat2Z.inj_succ, Z.pow_succ_r by lia. lia.
Qed.

Lemma retry_loop_success {A} (fn : nat -> result A) (opts : RetryOptions)
    (n : nat) :
  forall (budget : nat) (attempt delay : Z) (lastError : option JsError)
         (run : RetryRun) (a : A),
    (n < budget)%nat ->
    attempt + Z.of_nat n <= maxRetries opts ->
    (forall j, (j < n)%nat -> exists e, fn (calls run + j)%nat = Throw e) ->
    fn (calls run + n)%nat = Ok a ->
    retry_loop fn opts budget attempt delay lastError run
    = (Ok a,
       mkRun (S (calls run + n))
         (sleeps run
            ++ map (fun j : nat => delay * backoffMultiplier opts ^ Z.of_nat j)
                 (seq 0 n))).
Proof.
  induction n as [|n IH]; intros budget attempt delay lastError run a
    Hbudget Hattempt Hfail Hok.
  - destruct budget as [|budget]; [lia|]. cbn [retry_loop].
    destruct (Z.leb_spec attempt (maxRetries opts)); [|lia].
    rewrite Nat.add_0_r in Hok. rewrite Hok. cbn [seq map].
    rewrite app_nil_r, Nat.add_0_r. reflexivity.
  - destruct budget as [|budget]; [lia|]. cbn [retry_loop].
    destruct (Z.leb_spec attempt (maxRetries opts)); [|lia].
    destruct (Hfail 0%nat) as [e He]; [lia|]. rewrite Nat.add_0_r in He.
    rewrite He. destruct (Z.ltb_spec attempt (maxRetries opts)); [|lia].
    rewrite (IH budget (attempt + 1) (delay * backoffMultiplier opts)
               (Some e) (mkRun (S (calls run)) (sleeps run ++ [delay])) a).
    + cbn [calls sleeps]. rewrite <- app_assoc. cbn [app].
      rewrite backoff_shift. do 3 f_equal. lia.
    + lia.
    + lia.
    + cbn [calls]. intros j Hj. destruct (Hfail (S j)) as [e' He']; [lia|].
      exists e'. rewrite <- He'. f_equal. lia.
    + cbn [calls]. rewrite <- Hok. f_equal. lia.
Qed.

Lemma retry_loop_exhausted {A} (fn : nat -> result A) (opts : RetryOptions)
    (n : nat) :
  forall (budget : nat) (attempt delay : Z) (lastError : option JsError)
         (run : RetryRun) (e : JsError),
    (S n < budget)%nat ->
    attempt + Z.of_nat n = maxRetries opts ->
    (forall j, (j < n)%nat -> exists e', fn (calls run + j)%nat = Throw e') ->
    fn (calls run + n)%nat = Throw e ->
    retry_loop fn opts budget attempt delay lastError run
    = (Throw e,
       mkRun (S (calls run + n))
         (sleeps run
            ++ map (fun j : nat => delay * backoffMultiplier opts ^ Z.of_nat j)
                 (seq 0 n))).
Proof.
  induction n as [|n IH]; intros budget attempt delay lastError run e
    Hbudget Hattempt Hfail Hlast.
  - destruct budget as [|[|budget]]; [lia|lia|]. cbn [retry_loop].
    destruct (Z.leb_spec attempt (maxRetries opts)); [|lia].
    rewrite Nat.add_0_r in Hlast. rewrite Hlast.
    destruct (Z.ltb_spec attempt (maxRetries opts)); [lia|].
    destruct (Z.leb_spec (attempt + 1) (maxRetries opts)); [lia|].
    cbn [seq map]. rewrite app_nil_r, Nat.add_0_r. reflexivity.
  - destruct budget as [|budget]; [lia|]. cbn [retry_loop].
    destruct (Z.leb_spec attempt (maxRetries opts)); [|lia].
    destruct (Hfail 0%nat) as [e0 He0]; [lia|]. rewrite Nat.add_0_r in He0.
    rewrite He0. destruct (Z.ltb_spec attempt (maxRetries opts)); [|lia].
    rewrite (IH budget (attempt + 1) (delay * backoffMultiplier opts)
               (Some e0) (mkRun (S (calls run)) (sleeps run ++ [delay])) e).
    + cbn [calls sleeps]. rewrite <- app_assoc. cbn [app].
      rewrite backoff_shift. do 3 f_equal. lia.
    + lia.
    + lia.
    + cbn [calls]. intros j Hj. destruct (Hfail (S j)) as [e' He']; [lia|].
      exists e'. rewrite <- He'. f_equal. lia.
    + cbn [calls]. rewrite <- Hlast. f_equal. lia.
Qed.

(** X7. [withRetry] returns the first success among the first
    [maxRetries + 1] calls of [fn] and calls it no further; before each
    retry it sleeps, [retryDelayMs] the first time and
    [backoffMultiplier] times longer each time after. *)
Theorem withRetry_first_success {A} (fn : nat -> result A)
    (opts : RetryOptions) (k : nat) (a : A) :
  Z.of_nat k <= maxRetries opts ->
  (forall j, (j < k)%nat -> exists e, fn j = Throw e) ->
  fn k = Ok a ->
  withRetry fn opts
  = (Ok a,
     mkRun (S k)
       (map (fun j : nat => retryDelayMs opts * backoffMultiplier opts ^ Z.of_nat j)
          (seq 0 k))).
Proof.
  intros Hk Hfail Hok. unfold withRetry.
  rewrite (retry_loop_success fn opts k _ 0 (retryDelayMs opts) None
             (mkRun 0 []) a); try assumption; try reflexivity; lia.
Qed.

Lemma withRetry_first_success_witness :
  withRetry (fun k => if (k <? 2)%nat then Throw (Error_ (js "busy"))
                      else Ok k)
    DEFAULT_RETRY_OPTIONS
  = (Ok 2%nat, mkRun 3 [1000; 2000]).
Proof.
  rewrite (withRetry_first_success _ DEFAULT_RETRY_OPTIONS 2 2%nat).
  - reflexivity.
  - cbn. lia.
  - intros j Hj. exists (Error_ (js "busy")).
    destruct j as [|[|j]]; [reflexivity | reflexivity | lia].
  - reflexivity.
Defined.

(** X8. When every one of the [maxRetries + 1] calls fails, [withRetry]
    throws the error of the last call; it has slept [maxRetries] times
    and does not sleep after the last failure.  With a negative
    [maxRetries] it throws its own error without calling [fn] at all. *)
Theorem withRetry_exhausted {A} (fn : nat -> result A) (opts : RetryOptions) :
  (0 <= maxRetries opts ->
   forall e,
     (forall j, (j < Z.to_nat (maxRetries opts))%nat ->
                exists e', fn j = Throw e') ->
     fn (Z.to_nat (maxRetries opts)) = Throw e ->
     withRetry fn opts
     = (Throw e,
        mkRun (S (Z.to_nat (maxRetries opts)))
          (map (fun j : nat =>
                  retryDelayMs opts * backoffMultiplier opts ^ Z.of_nat j)
             (seq 0 (Z.to_nat (maxRetries opts))))))
  /\ (maxRetries opts < 0 ->
      withRetry fn opts
      = (Throw (Error_ (js "Operation failed after retries")), mkRun 0 [])).
Proof.
  split.
  - intros Hmax e Hfail Hlast. unfold withRetry.
    rewrite (retry_loop_exhausted fn opts (Z.to_nat (maxRetries opts)) _ 0
               (retryDelayMs opts) None (mkRun 0 []) e);
      try assumption; try reflexivity; lia.
  - intros Hneg. unfold withRetry.
    replace (Z.to_nat (maxRetries opts + 1)) with 0%nat by lia.
    cbn [Nat.add retry_loop].
    destruct (Z.leb_spec 0 (maxRetries opts)); [lia | reflexivity].
Qed.

Lemma withRetry_exhausted_witness :
  withRetry (fun k => @Throw nat (Error_ (number_to_string_of_nat k)))
    (mkRetry 2 100 3)
  = (Throw (Error_ (number_to_string_of_nat 2)), mkRun 3 [100; 300])
  /\ withRetry (fun k => @Throw nat (Error_ (js "never")))
       (mkRetry (-1) 100 3)
     = (Throw (Error_ (js "Operation failed after retries")), mkRun 0 []).
Proof.
  split.
  - destruct (withRetry_exhausted
                (fun k => @Throw nat (Error_ (number_to_string_of_nat k)))
                (mkRetry 2 100 3)) as [H _].
    rewrite (H ltac:(cbn; lia) (Error_ (number_to_string_of_nat 2))).
    + reflexivity.
    + intros j _. eexists. reflexivity.
    + reflexivity.
  - destruct (withRetry_exhausted (fun k => @Throw nat (Error_ (js "never")))
                (mkRetry (-1) 100 3)) as [_ H].
    apply H. cbn. lia.
Defined.

End RetryFacts.

Module ExternalContentRestFacts.
Import JS JSFacts ExternalContent ExternalContentRest.

(** *** Wrapping *)

(** X10. For a given source, different contents are wrapped differently: the
    content can be told from the wrapped text. *)
Theorem wrapWebContent_injective (c c' : jsstring) (source : option jsstring) :
  wrapWebContent c source = wrapWebContent c' source -> c = c'.
Proof.
  unfold wrapWebContent.
  destruct c as [|x c]; destruct c' as [|x' c']; cbn [truthy negb].
  - reflexivity.
  - discriminate.
  - discriminate.
  - intros H.
    rewrite !(app_assoc EXTERNAL_OPEN), !(app_assoc _ COMMENT_CLOSE),
      !(app_assoc _ [LF] (_ ++ _)) in H.
    apply app_inv_head in H. rewrite !app_assoc in H.
    apply app_inv_tail in H. apply app_inv_tail in H. exact H.
Qed.

Lemma wrapWebContent_injective_witness : js "page" = js "page".
Proof.
  apply (wrapWebContent_injective (js "page") (js "page")
           (Some (js "web_search"))).
  reflexivity.
Defined.

(** *** Where [truncateContent] cuts *)

Lemma lastIndexOf_from_spec (c : N) (s : jsstring) :
  forall i acc,
    let r := lastIndexOf_from c s i acc in
    r = acc \/ (i <= r < i + len s /\ s !! Z.to_nat (r - i) = Some c).
Proof.
  induction s as [|x t IH]; intros i acc; cbn [lastIndexOf_from].
  - left. reflexivity.
  - destruct (IH (i + 1) (if N.eqb x c then i else acc)) as [H|[Hr Hl]].
    + rewrite H. destruct (N.eqb_spec x c) as [->|_].
      * right. unfold len. cbn [length]. split; [lia|].
        rewrite Z.sub_diag. reflexivity.
      * left. reflexivity.
    + right. unfold len in *. cbn [length]. split; [lia|].
      replace (Z.to_nat (lastIndexOf_from c t (i + 1)
                           (if N.eqb x c then i else acc) - i))
        with (S (Z.to_nat (lastIndexOf_from c t (i + 1)
                             (if N.eqb x c then i else acc) - (i + 1))))
        by lia.
      exact Hl.
Qed.

Lemma lastIndexOf_spec (c : N) (s : jsstring) :
  lastIndexOf c s = -1
  \/ (0 <= lastIndexOf c s < len s
      /\ s !! Z.to_nat (lastIndexOf c s) = Some c).
Proof.
  unfold lastIndexOf.
  destruct (lastIndexOf_from_spec c s 0 (-1)) as [H|[Hr Hl]].
  - left. exact H.
  - right. rewrite Z.sub_0_r in Hl. split; [lia | exact Hl].
Qed.

(** X11. When the content is longer than [maxLength] and the suffix leaves
    room, the result is a prefix of the content followed by the suffix,
    the prefix filling at most the room left; a shorter prefix occurs
    only when words are preserved, and then the content goes on with a
    space right after the prefix, which covers more than four fifths of
    the room. *)
Theorem truncateContent_cut (content : jsstring) (maxLength : Z)
    (options : option TruncateOptions) :
  maxLength < len content ->
  len (suffix_of options) < maxLength ->
  exists kept rest,
    content = kept ++ rest
    /\ truncateContent content maxLength options = kept ++ suffix_of options
    /\ len kept <= maxLength - len (suffix_of options)
    /\ (len kept < maxLength - len (suffix_of options) ->
        preserveWords_of options = true
        /\ (exists rest', rest = SPACE :: rest')
        /\ 4 * (maxLength - len (suffix_of options)) < 5 * len kept).
Proof.
  intros Hlong Hroom. pose proof (len_nonneg (suffix_of options)) as Hs.
  unfold truncateContent.
  destruct content as [|x content']; [unfold len in Hlong; simpl in Hlong; lia|].
  set (content := x :: content') in *. cbn [truthy negb orb].
  destruct (Z.leb_spec (len content) maxLength); [lia|].
  set (avail := maxLength - len (suffix_of options)) in *.
  destruct (Z.leb_spec avail 0); [lia|].
  rewrite (slice_0_take content avail) by lia.
  assert (Hfull : len (take (Z.to_nat avail) content) = avail).
  { unfold len in *. rewrite length_take. lia. }
  destruct (preserveWords_of options) eqn:Hwords.
  2:{ exists (take (Z.to_nat avail) content), (drop (Z.to_nat avail) content).
      split; [symmetry; apply take_drop|]. split; [reflexivity|].
      split; lia. }
  set (truncated := take (Z.to_nat avail) content) in *.
  destruct (Z.ltb_spec (4 * avail) (5 * lastIndexOf SPACE truncated))
    as [Hcut|Hkeep].
  2:{ exists truncated, (drop (Z.to_nat avail) content).
      split; [symmetry; apply take_drop|]. split; [reflexivity|].
      split; lia. }
  destruct (lastIndexOf_spec SPACE truncated) as [Hnone|[Hrange Hspace]];
    [lia|].
  set (lastSpace := lastIndexOf SPACE truncated) in *.
  rewrite (slice_0_take truncated lastSpace) by lia.
  assert (Hprefix : take (Z.to_nat lastSpace) truncated
                    = take (Z.to_nat lastSpace) content).
  { unfold truncated. rewrite take_take. f_equal. lia. }
  assert (Hat : content !! Z.to_nat lastSpace = Some SPACE).
  { unfold truncated in Hspace. rewrite lookup_take_lt in Hspace by lia.
    exact Hspace. }
  exists (take (Z.to_nat lastSpace) content),
    (drop (Z.to_nat lastSpace) content).
  split; [symmetry; apply take_drop|]. rewrite Hprefix.
  split; [reflexivity|].
  assert (Hlen : len (take (Z.to_nat lastSpace) content) = lastSpace).
  { unfold len in *. rewrite length_take. lia. }
  split; [lia|]. intros _. split; [reflexivity|]. split; [|lia].
  exists (drop (S (Z.to_nat lastSpace)) content).
  apply drop_S. exact Hat.
Qed.

Lemma truncateContent_cut_witness :
  exists kept rest,
    js "aaaaaaaaa bbbbbbbbbbbbbbbbbbbbbbbbbbbbbbbbbb" = kept ++ rest
    /\ truncateContent (js "aaaaaaaaa bbbbbbbbbbbbbbbbbbbbbbbbbbbbbbbbbb")
         34 None = kept ++ DEFAULT_SUFFIX
    /\ len kept <= 34 - len DEFAULT_SUFFIX.
Proof.
  destruct (truncateContent_cut
              (js "aaaaaaaaa bbbbbbbbbbbbbbbbbbbbbbbbbbbbbbbbbb") 34 None)
    as (kept & rest & Hsplit & Hres & Hlen & _).
  - vm_compute. reflexivity.
  - vm_compute. reflexivity.
  - exists kept, rest. split; [exact Hsplit|]. split; [exact Hres | exact Hlen].
Defined.

(** *** Lines *)

Lemma split_lines_nonempty (s : jsstring) : split_lines s <> [].
Proof.
  destruct s as [|c r]; cbn [split_lines]; [discriminate|].
  destruct (N.eqb c LF); [discriminate|].
  destruct (split_lines r); discriminate.
Qed.

Lemma join_split_lines (s : jsstring) : join_lines (split_lines s) = s.
Proof.
  induction s as [|c r IH]; [reflexivity|]. cbn [split_lines].
  destruct (N.eqb_spec c LF) as [->|_].
  - pose proof (split_lines_nonempty r) as Hne.
    destruct (split_lines r) as [|l ls]; [congruence|].
    cbn [join_lines app] in *. rewrite IH. reflexivity.
  - pose proof (split_lines_nonempty r) as Hne.
    destruct (split_lines r) as [|l ls]; [congruence|].
    rewrite <- IH. destruct ls; reflexivity.
Qed.

Lemma split_lines_app (a b : jsstring) :
  split_lines (a ++ LF :: b) = split_lines a ++ split_lines b.
Proof.
  induction a as [|c a IH]; [reflexivity|].
  cbn [app split_lines]. rewrite IH.
  destruct (N.eqb c LF); [reflexivity|].
  pose proof (split_lines_nonempty a) as Hne.
  destruct (split_lines a); [congruence | reflexivity].
Qed.

Lemma split_lines_no_LF (s : jsstring) : Forall no_LF (split_lines s).
Proof.
  induction s as [|c r IH]; cbn [split_lines].
  - repeat constructor.
  - destruct (N.eqb_spec c LF) as [->|Hc].
    + constructor; [constructor | exact IH].
    + destruct (split_lines r) as [|l ls].
      * repeat constructor. exact Hc.
      * inversion IH; subst. constructor; [constructor; assumption | assumption].
Qed.

Lemma split_lines_single (l : jsstring) : no_LF l -> split_lines l = [l].
Proof.
  induction 1 as [|c r Hc _ IH]; [reflexivity|]. cbn [split_lines].
  destruct (N.eqb_spec c LF); [congruence|]. rewrite IH. reflexivity.
Qed.

Lemma split_join_lines (ls : list jsstring) :
  ls <> [] -> Forall no_LF ls -> split_lines (join_lines ls) = ls.
Proof.
  induction ls as [|l rest IH]; [congruence|]. intros _ Hall.
  inversion Hall as [|? ? Hl Hrest]; subst.
  destruct rest as [|l' rest].
  - apply split_lines_single. exact Hl.
  - change (join_lines (l :: l' :: rest))
      with (l ++ LF :: join_lines (l' :: rest)).
    rewrite split_lines_app, (split_lines_single l Hl), IH;
      [reflexivity | discriminate | exact Hrest].
Qed.

Lemma join_lines_take (ls : list jsstring) (n : nat) :
  exists rest, join_lines ls = join_lines (take n ls) ++ rest.
Proof.
  revert n. induction ls as [|l ls IH]; intros n.
  - exists []. rewrite take_nil. reflexivity.
  - destruct n as [|n]; [exists (join_lines (l :: ls)); reflexivity|].
    cbn [take]. destruct (IH n) as [rest Hrest].
    destruct ls as [|l' ls].
    + exists []. rewrite take_nil, app_nil_r. reflexivity.
    + destruct n as [|n].
      * exists (LF :: join_lines (l' :: ls)). reflexivity.
      * change (join_lines (l :: l' :: ls))
          with (l ++ LF :: join_lines (l' :: ls)).
        change (join_lines (l :: take (S n) (l' :: ls)))
          with (l ++ LF :: join_lines (take (S n) (l' :: ls))).
        rewrite Hrest. exists rest. rewrite <- app_assoc. reflexivity.
Qed.

Lemma truncateByLines_short (content : jsstring) (maxLines : Z)
    (suffix_ : option jsstring) :
  len (split_lines content) <= maxLines ->
  truncateByLines content maxLines suffix_ = content.
Proof.
  intros H. unfold truncateByLines.
  destruct (Z.leb_spec (len (split_lines content)) maxLines); [reflexivity|lia].
Qed.

Lemma truncateByLines_long (content : jsstring) (maxLines : Z)
    (suffix_ : option jsstring) :
  0 <= maxLines < len (split_lines content) ->
  truncateByLines content maxLines suffix_
  = join_lines (take (Z.to_nat maxLines) (split_lines content))
      ++ match suffix_ with Some s => s | None => DEFAULT_SUFFIX end.
Proof.
  intros H. unfold truncateByLines.
  destruct (Z.leb_spec (len (split_lines content)) maxLines); [lia|].
  rewrite slice_0_take by lia. reflexivity.
Qed.

(** X12. [truncateByLines] returns content of at most [maxLines] lines as it
    is; longer content is cut after its first [maxLines] lines, the result
    being that prefix of the content followed by the suffix. *)
Theorem truncateByLines_prefix (content : jsstring) (maxLines : Z)
    (suffix_ : option jsstring) :
  (len (split_lines content) <= maxLines ->
   truncateByLines content maxLines suffix_ = content)
  /\ (0 <= maxLines < len (split_lines content) ->
      exists rest,
        let kept := join_lines (take (Z.to_nat maxLines) (split_lines content)) in
        content = kept ++ rest
        /\ truncateByLines content maxLines suffix_
           = kept ++ match suffix_ with Some s => s | None => DEFAULT_SUFFIX end).
Proof.
  split; intros H.
  - apply truncateByLines_short. exact H.
  - destruct (join_lines_take (split_lines content) (Z.to_nat maxLines))
      as [rest Hrest].
    exists rest. cbn zeta. rewrite <- Hrest, join_split_lines.
    split; [reflexivity|]. apply truncateByLines_long. exact H.
Qed.

Lemma truncateByLines_prefix_witness :
  truncateByLines (js "one") 1 None = js "one"
  /\ exists rest,
       LF :: js "two" = rest
       /\ truncateByLines (js "one" ++ LF :: js "two") 1 None
          = js "one" ++ DEFAULT_SUFFIX.
Proof.
  split.
  - apply (proj1 (truncateByLines_prefix (js "one") 1 None)).
    vm_compute. discriminate.
  - destruct (proj2 (truncateByLines_prefix (js "one" ++ LF :: js "two") 1 None))
      as (rest & Hsplit & Hres).
    + vm_compute. split; [discriminate | reflexivity].
    + exists (LF :: js "two"). split; [reflexivity | exact Hres].
Defined.

(** X13. With the default suffix and a non-negative [maxLines], truncating
    the result again changes nothing, although the suffix brings a line
    of its own. *)
Theorem truncateByLines_idempotent (content : jsstring) (maxLines : Z) :
  0 <= maxLines ->
  truncateByLines (truncateByLines content maxLines None) maxLines None
  = truncateByLines content maxLines None.
Proof.
  intros Hn.
  destruct (Z.le_gt_cases (len (split_lines content)) maxLines) as [Hle|Hgt].
  - rewrite (truncateByLines_short content maxLines None Hle).
    apply (truncateByLines_short content maxLines None Hle).
  - rewrite (truncateByLines_long content maxLines None) by lia.
    set (kept := take (Z.to_nat maxLines) (split_lines content)).
    assert (Hkept : length kept = Z.to_nat maxLines).
    { unfold kept, len in *. rewrite length_take. lia. }
    assert (Hlines : split_lines (join_lines kept ++ DEFAULT_SUFFIX)
                     = (if (maxLines =? 0) then [[]] else kept)
                       ++ [js "...[content truncated]"]).
    { unfold DEFAULT_SUFFIX. rewrite split_lines_app. f_equal.
      destruct (Z.eqb_spec maxLines 0) as [Hz|Hz].
      - destruct kept; [reflexivity | simpl in Hkept; lia].
      - apply split_join_lines.
        + destruct kept; [simpl in Hkept; lia | discriminate].
        + apply Forall_take, split_lines_no_LF. }
    unfold truncateByLines. rewrite Hlines.
    destruct (Z.eqb_spec maxLines 0) as [Hz|Hz].
    + subst maxLines. destruct kept; [reflexivity | simpl in Hkept; lia].
    + unfold len. rewrite length_app, Hkept. cbn [length].
      destruct (Z.leb_spec (Z.of_nat (Z.to_nat maxLines + 1)) maxLines); [lia|].
      rewrite slice_0_take by lia.
      rewrite take_app_le by lia. rewrite take_ge by lia. reflexivity.
Qed.

Lemma truncateByLines_idempotent_witness :
  0 <= 1
  /\ truncateByLines (truncateByLines (js "one" ++ LF :: js "two") 1 None) 1 None
     = js "one" ++ DEFAULT_SUFFIX.
Proof.
  split; [lia|].
  rewrite (truncateByLines_idempotent (js "one" ++ LF :: js "two") 1) by lia.
  reflexivity.
Defined.

(** *** Validity *)

(** X14. [isValidContent] accepts exactly the content that, once trimmed, has
    at least ten units and holds an ASCII letter or digit; the test for
    content made of white space only never decides. *)
Theorem isValidContent_iff (content : jsstring) :
  isValidContent content = true
  <-> 10 <= len (trim content) /\ existsb alnum (trim content) = true.
Proof.
  unfold isValidContent. destruct content as [|x content'].
  - cbn. unfold len. cbn. split; [discriminate | lia].
  - set (content := x :: content'). cbn [truthy negb].
    destruct (Z.ltb_spec (len (trim content)) 10) as [Hshort|Hlong].
    + split; [discriminate | lia].
    + destruct (forallb is_space (trim content)) eqn:Hspace.
      * unfold trim in *. apply WebSharedFacts.trimEnd_all_space in Hspace.
        rewrite Hspace in Hlong. unfold len in Hlong. simpl in Hlong. lia.
      * destruct (existsb alnum (trim content)); cbn; split; try tauto;
          try discriminate.
Qed.

Example isValidContent_examples :
  isValidContent (js "   hello world   ") = true
  /\ isValidContent (js "   hi   ") = false
  /\ isValidContent (js "----------------") = false.
Proof. repeat split. Qed.

End ExternalContentRestFacts.

Module KeyFacts.
Import JS JSFacts WebShared WebSharedFacts Vocabulary.

Lemma same_key_unit_space (a b : N) :
  same_key_unit a b -> is_space a = is_space b.
Proof. intros [->|(_ & _ & -> & ->)]; reflexivity. Qed.

Lemma replace_outside_app (rep a b : jsstring) :
  replace_outside key_char rep (a ++ b)
  = replace_outside key_char rep a ++ replace_outside key_char rep b.
Proof. unfold replace_outside. apply flat_map_app. Qed.

Lemma conflated (s1 s2 : jsstring) :
  Forall2 same_key_unit s1 s2 ->
  (trimEnd s1 = [] <-> trimEnd s2 = [])
  /\ forall flag,
       replace_outside key_char [UNDERSCORE]
         (replace_space_runs [UNDERSCORE] flag (trimEnd s1))
       = replace_outside key_char [UNDERSCORE]
           (replace_space_runs [UNDERSCORE] flag (trimEnd s2)).
Proof.
  induction 1 as [|a b s1 s2 Hab _ [IHnil IH]]; [split; [tauto | reflexivity]|].
  pose proof (same_key_unit_space a b Hab) as Hsp.
  destruct (is_space a) eqn:Ha; symmetry in Hsp.
  - assert (a = b) as <- by (destruct Hab as [?|(_ & _ & ? & _)]; congruence).
    rewrite !(trimEnd_space a) by assumption.
    destruct (trimEnd s1) as [|x t1] eqn:E1;
      destruct (trimEnd s2) as [|y t2] eqn:E2.
    + split; [tauto | reflexivity].
    + destruct IHnil as [IHnil _]. specialize (IHnil eq_refl). discriminate.
    + destruct IHnil as [_ IHnil]. specialize (IHnil eq_refl). discriminate.
    + split; [split; discriminate|]. intros flag.
      cbn [replace_space_runs]. rewrite Ha.
      rewrite !replace_outside_app. f_equal. apply (IH true).
  - rewrite (trimEnd_unit a s1 Ha), (trimEnd_unit b s2 Hsp).
    split; [split; discriminate|]. intros flag.
    cbn [replace_space_runs]. rewrite Ha, Hsp.
    change (replace_outside key_char [UNDERSCORE] (?c :: ?r))
      with ((if key_char c then [c] else [UNDERSCORE])
              ++ replace_outside key_char [UNDERSCORE] r).
    rewrite (IH false). f_equal.
    destruct Hab as [->|(-> & -> & _)]; reflexivity.
Qed.

(** X9. The cache key does not tell apart units outside [[a-z0-9_-]]: two
    strings whose lower-cased forms agree except at positions where both
    hold such a unit (white space apart) have the same key. *)
Theorem normalizeCacheKey_conflates (toLowerCase : jsstring -> jsstring)
    (k k' : jsstring) :
  Forall2 same_key_unit (toLowerCase k) (toLowerCase k') ->
  normalizeCacheKey toLowerCase k = normalizeCacheKey toLowerCase k'.
Proof.
  intros H. unfold normalizeCacheKey. rewrite !trim_then_collapse.
  rewrite (proj2 (conflated _ _ H) true). reflexivity.
Qed.

Lemma normalizeCacheKey_conflates_witness :
  normalizeCacheKey ascii_toLowerCase (js "searxng:c++:5")
  = normalizeCacheKey ascii_toLowerCase (js "searxng:c##:5").
Proof.
  apply normalizeCacheKey_conflates.
  repeat (constructor; [first [left; reflexivity
                              | right; repeat split; reflexivity]|]).
  constructor.
Defined.

End KeyFacts.

Module PipelineFacts.
Import JS JSFacts ExternalContent WebShared WebSearch Vocabulary Scenarios.
Import WebSearchFacts.

(** *** The extraction service *)

Lemma startsWith_split (p s : jsstring) :
  startsWith p s = true -> s = p ++ drop (length p) s.
Proof.
  revert s. induction p as [|c p IH]; intros s H; [reflexivity|].
  destruct s as [|x s]; [discriminate|]. cbn [startsWith] in H.
  apply andb_true_iff in H as [Hc Hp]. apply N.eqb_eq in Hc. subst x.
  cbn [length drop app]. f_equal. apply IH. exact Hp.
Qed.

(** X15. Both branches of the address computation give the same address: the
    reader's base followed by the whole target. *)
Theorem jinaUrl_uniform (target : jsstring) :
  jinaUrl target = js "https://r.jina.ai/" ++ target.
Proof.
  unfold jinaUrl. destruct (startsWith (js "http://") target) eqn:E;
    [|reflexivity].
  apply startsWith_split in E. rewrite E at 2.
  change JINA_READER_URL with (js "https://r.jina.ai/" ++ js "http://").
  rewrite <- app_assoc. reflexivity.
Qed.

Lemma limit_content_len (text : jsstring) :
  len (limit_content text) <= MAX_CONTENT_LENGTH + len TRUNCATION_MARKER.
Proof.
  unfold limit_content, MAX_CONTENT_LENGTH.
  pose proof (len_nonneg TRUNCATION_MARKER).
  destruct (Z.ltb_spec 5000 (len text)); [|lia].
  rewrite len_app. pose proof (slice_0_len_bound text 5000). lia.
Qed.

Lemma fetchWithJinaReader_outcome (env : Env) (target : jsstring)
    (timeoutSeconds : Z) (w : World) :
  exists r w',
    fetchWithJinaReader env target timeoutSeconds w = (r, w')
    /\ requests w'
       = requests w ++ [JinaReq {| req_jinaUrl := jinaUrl target;
                                   req_jinaTimeoutMs := timeoutSeconds * 1000 |}]
    /\ SEARCH_CACHE w' = SEARCH_CACHE w
    /\ match r with
       | Some text_ => len text_ <= 5023
       | None => True
       end.
Proof.
  unfold fetchWithJinaReader, bind, fetch.
  destruct (jina_reply env _) as [|[|] [text_|]]; eexists _, _;
    (split; [reflexivity|]); cbn; repeat split.
  apply (limit_content_len text_).
Qed.

(** X16. [fetchWithJinaReader] never throws: it issues exactly one request,
    leaves the cache alone, and returns nothing or a text of at most 5023
    units. *)
Theorem fetchWithJinaReader_best_effort (env : Env) (target : jsstring)
    (timeoutSeconds : Z) (w : World) :
  exists r w',
    fetchWithJinaReader env target timeoutSeconds w = (r, w')
    /\ requests w'
       = requests w ++ [JinaReq {| req_jinaUrl := jinaUrl target;
                                   req_jinaTimeoutMs := timeoutSeconds * 1000 |}]
    /\ SEARCH_CACHE w' = SEARCH_CACHE w
    /\ match r with
       | Some text_ => len text_ <= 5023
       | None => True
       end.
Proof. apply fetchWithJinaReader_outcome. Qed.

(** *** What a run leaves in the cache *)

Lemma mark_cached_idem (p : Payload) : mark_cached (mark_cached p) = mark_cached p.
Proof. reflexivity. Qed.

Lemma runWebSearch_caches (env : Env) (params : SearchParams) (w w' : World)
    (p : Payload) :
  runWebSearch env params w = (p, w') ->
  exists entry,
    entries (SEARCH_CACHE w') !! cacheKeyOf env params = Some entry
    /\ mark_cached (value entry) = mark_cached p.
Proof.
  unfold runWebSearch, bind, read_search_cache, date_now, write_search_cache,
    ret.
  destruct (readCache (entries (SEARCH_CACHE w)) (cacheKeyOf env params))
    as [entry|] eqn:Hread.
  - intros [= <- <-]. exists entry. unfold readCache in Hread.
    destruct (entries (SEARCH_CACHE w) !! cacheKeyOf env params) eqn:E;
      [|discriminate].
    inversion Hread; subst. split; [reflexivity | reflexivity].
  - destruct (searchWithSearXNG env (param_query params) (param_count params)
                (param_language params) (param_timeoutSeconds params) w)
      as [[[hits inst]|] w1].
    + destruct (len hits =? 0).
      * intros [= <- <-]. eexists. cbn. rewrite lookup_insert_eq.
        split; reflexivity.
      * destruct (mapResults env params hits w1) as [mapped w2].
        intros [= <- <-]. eexists. cbn. rewrite lookup_insert_eq.
        split; reflexivity.
    + intros [= <- <-]. eexists. cbn. rewrite lookup_insert_eq.
      split; reflexivity.
Qed.

(** X17. After any run, a run whose parameters give the same cache key (the
    same query again, or one the key does not tell apart, whatever its
    timeout and time to live) returns the payload of the first run
    marked as cached; it issues no request and changes nothing. *)
Theorem runWebSearch_repeat (env : Env) (first second : SearchParams)
    (w : World) :
  cacheKeyOf env first = cacheKeyOf env second ->
  runWebSearch env second (snd (runWebSearch env first w))
  = (mark_cached (fst (runWebSearch env first w)),
     snd (runWebSearch env first w)).
Proof.
  intros Hkey. destruct (runWebSearch env first w) as [p w'] eqn:Hrun.
  destruct (runWebSearch_caches env first w w' p Hrun) as (entry & Hin & Hval).
  cbn [fst snd]. rewrite Hkey in Hin.
  rewrite (runWebSearch_hit env second _ entry Hin), Hval. reflexivity.
Qed.

Lemma runWebSearch_repeat_witness :
  runWebSearch all_unreachable (test_query 60000)
    (snd (runWebSearch all_unreachable (test_query 3600000) (start_world 0)))
  = (mark_cached
       (fst (runWebSearch all_unreachable (test_query 3600000) (start_world 0))),
     snd (runWebSearch all_unreachable (test_query 3600000) (start_world 0))).
Proof.
  apply (runWebSearch_repeat all_unreachable (test_query 3600000)
           (test_query 60000) (start_world 0)).
  reflexivity.
Defined.

(** *** The shape of a fresh payload *)

Lemma try_instances_outcome (env : Env) (query : jsstring) (count_ : Z)
    (language : option jsstring) (timeoutSeconds : Z) (pool : list jsstring) :
  forall (w w1 : World) (r : option (list SearXNGResult * jsstring)),
    try_instances env query count_ language timeoutSeconds pool w = (r, w1) ->
    (exists reqs, requests w1 = requests w ++ reqs
                  /\ Forall is_search_request reqs)
    /\ SEARCH_CACHE w1 = SEARCH_CACHE w
    /\ match r with
       | Some (hits, inst) => inst ∈ pool /\ exists rs, hits = slice rs 0 count_
       | None => True
       end.
Proof.
  induction pool as [|inst rest IH]; intros w w1 r; cbn [try_instances].
  - intros [= <- <-]. split; [exists []; rewrite app_nil_r; auto|]. auto.
  - unfold bind at 1, fetch at 1.
    destruct (usable_results _) as [rs|].
    + intros [= <- <-]. cbn. split.
      * eexists. split; [reflexivity|]. repeat constructor.
      * split; [reflexivity|]. split; [apply list_elem_of_here|].
        exists rs. reflexivity.
    + intros Hrun. apply IH in Hrun as ((reqs & Hreq & Hall) & Hcache & Hres).
      cbn in Hreq, Hcache. split.
      * eexists. rewrite Hreq, <- app_assoc. split; [reflexivity|].
        constructor; [exact I | exact Hall].
      * split; [exact Hcache|]. destruct r as [[hits i]|]; [|exact I].
        destruct Hres as [Hin Hrs]. split; [|exact Hrs].
        apply list_elem_of_further. exact Hin.
Qed.

Lemma or_undefined_truthy (a : option jsstring) (c : jsstring) :
  or_undefined a = Some c -> c <> [].
Proof.
  destruct a as [s|]; [|discriminate]. cbn.
  destruct s; [discriminate|]. intros [= <-]. discriminate.
Qed.

Lemma guarded_if_truthy (raw : jsstring) :
  guarded_text (if truthy raw then wrapWebContent raw WEB_SEARCH else []).
Proof.
  destruct raw as [|x raw]; [left; reflexivity|].
  right. exists (x :: raw). split; [discriminate | reflexivity].
Qed.

Lemma mapResult_outcome (env : Env) (params : SearchParams)
    (entry : SearXNGResult) (w w' : World) (r : SearchResult) :
  mapResult env params entry w = (r, w') ->
  guarded r
  /\ url r = or_else (hit_url entry) []
  /\ SEARCH_CACHE w' = SEARCH_CACHE w
  /\ (param_fetchContent params = Some false -> w' = w /\ content r = None).
Proof.
  unfold mapResult, bind at 1.
  destruct (negb (bool_decide (param_fetchContent params = Some false))
            && truthy (or_else (hit_url entry) [])) eqn:Hfetch.
  - unfold bind at 1.
    destruct (fetchWithJinaReader_outcome env (or_else (hit_url entry) [])
                (Z.min (param_timeoutSeconds params) 10) w)
      as (c & w1 & Hrun & _ & Hcache & _).
    rewrite Hrun. unfold ret. intros [= <- <-].
    split; [|split; [reflexivity|split; [exact Hcache|]]].
    + split; [apply guarded_if_truthy|]. split; [apply guarded_if_truthy|].
      cbn [content]. destruct (or_undefined c) as [c'|] eqn:E; [|exact I].
      exists c'. split; [exact (or_undefined_truthy _ _ E) | reflexivity].
    + intros Hoff. rewrite Hoff in Hfetch. discriminate.
  - unfold ret. intros [= <- <-].
    split; [|split; [reflexivity|split; [reflexivity|]]].
    + split; [apply guarded_if_truthy|]. split; [apply guarded_if_truthy|].
      exact I.
    + intros _. split; reflexivity.
Qed.

Lemma mapResults_outcome (env : Env) (params : SearchParams)
    (hits : list SearXNGResult) :
  forall (w w' : World) (mapped : list SearchResult),
    mapResults env params hits w = (mapped, w') ->
    Forall guarded mapped
    /\ map url mapped = map (fun entry => or_else (hit_url entry) []) hits
    /\ SEARCH_CACHE w' = SEARCH_CACHE w
    /\ (param_fetchContent params = Some false ->
        w' = w /\ Forall (fun r => content r = None) mapped).
Proof.
  induction hits as [|entry rest IH]; intros w w' mapped; cbn [mapResults].
  - unfold ret. intros [= <- <-]. repeat split; constructor.
  - unfold bind at 1.
    destruct (mapResult env params entry w) as [r w1] eqn:Hone.
    unfold bind at 1.
    destruct (mapResults env params rest w1) as [rs w2] eqn:Hrest.
    unfold ret. intros [= <- <-].
    apply mapResult_outcome in Hone as (Hg & Hurl & Hc1 & Hoff1).
    apply IH in Hrest as (Hgs & Hurls & Hc2 & Hoff2).
    split; [constructor; assumption|].
    split; [cbn [map]; rewrite Hurl, Hurls; reflexivity|].
    split; [congruence|]. intros Hoff.
    destruct (Hoff1 Hoff) as [-> Hnone]. destruct (Hoff2 Hoff) as [-> Hnones].
    split; [reflexivity | constructor; assumption].
Qed.

(** What a run that misses the cache is made of. *)
Lemma runWebSearch_miss (env : Env) (params : SearchParams) (w w' : World)
    (p : Payload) :
  readCache (entries (SEARCH_CACHE w)) (cacheKeyOf env params) = None ->
  runWebSearch env params w = (p, w') ->
  exists found w1,
    searchWithSearXNG env (param_query params) (param_count params)
      (param_language params) (param_timeoutSeconds params) w = (found, w1)
    /\ ((p = emptyPayload params (now w1 - now w)
         /\ now w' = now w1 /\ requests w' = requests w1
         /\ match found with
            | Some (hits, _) => hits = []
            | None => True
            end)
        \/ (exists hits inst mapped w2,
              found = Some (hits, inst) /\ hits <> []
              /\ mapResults env params hits w1 = (mapped, w2)
              /\ p = resultPayload params inst mapped (now w2 - now w)
              /\ now w' = now w2 /\ requests w' = requests w2)).
Proof.
  intros Hmiss Hrun.
  unfold runWebSearch, bind at 1, read_search_cache in Hrun.
  rewrite Hmiss in Hrun. unfold bind at 1, date_now at 1 in Hrun.
  unfold bind at 1 in Hrun.
  destruct (searchWithSearXNG env (param_query params) (param_count params)
              (param_language params) (param_timeoutSeconds params) w)
    as [found w1].
  exists found, w1. split; [reflexivity|].
  destruct found as [[hits inst]|].
  - destruct (Z.eqb_spec (len hits) 0) as [Hz|Hnz].
    + unfold bind, date_now, write_search_cache, ret in Hrun.
      injection Hrun as <- <-. left. cbn. repeat split.
      destruct hits; [reflexivity | unfold len in Hz; simpl in Hz; lia].
    + unfold bind at 1 in Hrun.
      destruct (mapResults env params hits w1) as [mapped w2] eqn:Hmap.
      unfold bind, date_now, write_search_cache, ret in Hrun.
      injection Hrun as <- <-. right. exists hits, inst, mapped, w2. cbn.
      repeat split; [intros ->; apply Hnz; reflexivity | exact Hmap].
  - unfold bind, date_now, write_search_cache, ret in Hrun.
    injection Hrun as <- <-. left. cbn. repeat split.
Qed.

(** X18. A run that misses the cache with content extraction switched off
    issues search requests only, and none of its results carries a
    content. *)
Theorem runWebSearch_snippets_only (env : Env) (params : SearchParams)
    (w w' : World) (p : Payload) :
  readCache (entries (SEARCH_CACHE w)) (cacheKeyOf env params) = None ->
  param_fetchContent params = Some false ->
  runWebSearch env params w = (p, w') ->
  Forall (fun r => content r = None) (results p)
  /\ exists reqs, requests w' = requests w ++ reqs
                  /\ Forall is_search_request reqs.
Proof.
  intros Hmiss Hoff Hrun.
  destruct (runWebSearch_miss env params w w' p Hmiss Hrun)
    as (found & w1 & Hsearch & Hcases).
  apply try_instances_outcome in Hsearch as ((reqs & Hreq & Hall) & _ & _).
  destruct Hcases as [(-> & _ & Hr & _)
                     |(hits & inst & mapped & w2 & _ & _ & Hmap & -> & _ & Hr)].
  - split; [constructor|]. exists reqs. rewrite Hr. auto.
  - apply mapResults_outcome in Hmap as (_ & _ & _ & Hnone).
    destruct (Hnone Hoff) as [-> Hcontent].
    split; [exact Hcontent|]. exists reqs. rewrite Hr. auto.
Qed.

Lemma runWebSearch_snippets_only_witness :
  exists p w',
    runWebSearch third_answers MoreScenarios.snippets_only (start_world 0)
    = (p, w')
    /\ Forall (fun r => content r = None) (results p)
    /\ length (requests w') = 3%nat.
Proof.
  destruct (runWebSearch third_answers MoreScenarios.snippets_only
              (start_world 0)) as [p w'] eqn:Hrun.
  exists p, w'. split; [reflexivity|]. split.
  - apply (runWebSearch_snippets_only third_answers
             MoreScenarios.snippets_only (start_world 0) w' p);
      [reflexivity | reflexivity | exact Hrun].
  - vm_compute in Hrun. injection Hrun as <- <-. reflexivity.
Defined.

(** X19. In the payload of a run that misses the cache, every title, every
    description and every content is empty or absent, or else wrapped by
    the content guard with the source [web_search]; the address of each
    result is the one the provider gave. *)
Theorem runWebSearch_guarded (env : Env) (params : SearchParams)
    (w w' : World) (p : Payload) :
  readCache (entries (SEARCH_CACHE w)) (cacheKeyOf env params) = None ->
  runWebSearch env params w = (p, w') ->
  Forall guarded (results p).
Proof.
  intros Hmiss Hrun.
  destruct (runWebSearch_miss env params w w' p Hmiss Hrun)
    as (found & w1 & _ & Hcases).
  destruct Hcases as [(-> & _)
                     |(hits & inst & mapped & w2 & _ & _ & Hmap & -> & _)].
  - constructor.
  - apply mapResults_outcome in Hmap as (Hg & _). exact Hg.
Qed.

Lemma runWebSearch_guarded_witness :
  exists p w',
    runWebSearch third_answers MoreScenarios.snippets_only (start_world 0)
    = (p, w')
    /\ Forall guarded (results p)
    /\ map title p.(results)
       = [wrapWebContent (js "one") WEB_SEARCH;
          wrapWebContent (js "two") WEB_SEARCH].
Proof.
  destruct (runWebSearch third_answers MoreScenarios.snippets_only
              (start_world 0)) as [p w'] eqn:Hrun.
  exists p, w'. split; [reflexivity|]. split.
  - apply (runWebSearch_guarded third_answers MoreScenarios.snippets_only
             (start_world 0) w' p); [reflexivity | exact Hrun].
  - vm_compute in Hrun. injection Hrun as <- <-. reflexivity.
Defined.

(** X20. The payload of a run that misses the cache counts its results, never
    more than a non-negative requested count, reports the time the run
    took, and is of one of two shapes: results from an instance of the
    shuffled pool without an error, or no result, no instance and the
    error string. *)
Theorem runWebSearch_fresh_payload (env : Env) (params : SearchParams)
    (w w' : World) (p : Payload) :
  readCache (entries (SEARCH_CACHE w)) (cacheKeyOf env params) = None ->
  runWebSearch env params w = (p, w') ->
  count p = len (results p)
  /\ (0 <= param_count params -> count p <= param_count params)
  /\ tookMs p = now w' - now w
  /\ query p = param_query params
  /\ cached p = None
  /\ ((error p = None /\ results p <> []
       /\ exists inst, instance p = Some inst
                       /\ inst ∈ shuffle env SEARXNG_INSTANCES)
      \/ (error p = Some (js "No results found from any SearXNG instance")
          /\ results p = [] /\ instance p = None)).
Proof.
  intros Hmiss Hrun.
  destruct (runWebSearch_miss env params w w' p Hmiss Hrun)
    as (found & w1 & Hsearch & Hcases).
  apply try_instances_outcome in Hsearch as (_ & _ & Hfound).
  destruct Hcases as [(-> & Hnow & _)
                     |(hits & inst & mapped & w2 & -> & Hne & Hmap & -> & Hnow & _)].
  - cbn. rewrite Hnow. repeat split; try reflexivity.
    + intros; assumption.
    + right. repeat split.
  - destruct Hfound as [Hin [rs ->]].
    apply mapResults_outcome in Hmap as (_ & Hurls & _).
    assert (Hlen : len mapped = len (slice rs 0 (param_count params))).
    { unfold len. f_equal.
      rewrite <- (length_map url mapped), Hurls, length_map. reflexivity. }
    cbn. rewrite Hnow. repeat split; try reflexivity.
    + intros Hc. rewrite Hlen. apply slice_0_len_bound. exact Hc.
    + left. repeat split.
      * intros ->. apply Hne. unfold len in Hlen. simpl in Hlen.
        destruct (slice rs 0 (param_count params)); [reflexivity | discriminate].
      * exists inst. split; [reflexivity | exact Hin].
Qed.

Lemma runWebSearch_fresh_payload_witness :
  exists p w',
    runWebSearch third_answers MoreScenarios.snippets_only (start_world 0)
    = (p, w')
    /\ count p = 2 /\ tookMs p = 120
    /\ instance p = Some (js "https://search.sapti.me").
Proof.
  destruct (runWebSearch third_answers MoreScenarios.snippets_only
              (start_world 0)) as [p w'] eqn:Hrun.
  destruct (runWebSearch_fresh_payload third_answers
              MoreScenarios.snippets_only (start_world 0) w' p)
    as (Hcount & _ & Htook & _); [reflexivity | exact Hrun |].
  exists p, w'. split; [reflexivity|].
  vm_compute in Hrun. injection Hrun as <- <-. repeat split.
Defined.

End PipelineFacts.

Module ToolFacts.
Import JS JSFacts Numbers Browser Common WebShared WebSharedRest WebSearch.
Import WebSearchTool MoreScenarios Scenarios.

Lemma resolveSearchCount_range (v : option Z) (fallback : Z) :
  1 <= resolveSearchCount v fallback <= 10.
Proof. unfold resolveSearchCount, MAX_SEARCH_COUNT. lia. Qed.

Lemma resolveTimeoutSeconds_default_range (configured : option number) :
  1 <= resolveTimeoutSeconds configured DEFAULT_TIMEOUT_SECONDS <= 120.
Proof.
  unfold resolveTimeoutSeconds, DEFAULT_TIMEOUT_SECONDS.
  destruct configured as [[q| |s]|]; try lia.
  apply (WebSharedRestFacts.clamped_floor 120 q). lia.
Qed.

Lemma resolveCacheTtlMs_default_range (configured : option number) :
  60000 <= resolveCacheTtlMs configured DEFAULT_CACHE_TTL_MINUTES <= 86400000.
Proof.
  unfold resolveCacheTtlMs, DEFAULT_CACHE_TTL_MINUTES.
  destruct configured as [[q| |s]|]; try lia.
  pose proof (WebSharedRestFacts.clamped_floor 1440 q). unfold MAX_CACHE_TTL_MINUTES.
  lia.
Qed.

Lemma bind_ret_pair {A B} (m : M A) (f : A -> B) (w : World) :
  bind m (fun a => ret (f a)) w = (f (fst (m w)), snd (m w)).
Proof. unfold bind, ret. destruct (m w). reflexivity. Qed.

Lemma or_undefined_nonempty (a : option jsstring) : or_undefined a <> Some [].
Proof.
  destruct a as [[|x s]|]; cbn; discriminate.
Qed.

(** X21. Whatever the arguments and the configuration, the tool either throws
    before anything happens, or runs the search with a count in [1, 10],
    a timeout in [1, 120] seconds, a time to live between one minute and
    one day, an explicit content flag and a language that is absent or
    non-empty, and returns the payload of that run. *)
Theorem execute_clamps (search : option SearchConfig) (env : Env)
    (args : gmap jsstring JsValue) (w : World) :
  (exists e, execute search env args w = (Throw e, w))
  \/ (exists params,
        execute search env args w
        = (Ok (fst (runWebSearch env params w)),
           snd (runWebSearch env params w))
        /\ 1 <= param_count params <= 10
        /\ 1 <= param_timeoutSeconds params <= 120
        /\ 60000 <= param_cacheTtlMs params <= 86400000
        /\ (exists b, param_fetchContent params = Some b)
        /\ param_language params <> Some []).
Proof.
  unfold execute.
  destruct (readStringParam args (js "query") true None) as [query_|e];
    [|left; exists e; reflexivity].
  destruct (readNumberParam args (js "count") false None true)
    as [count_param|e]; [|left; exists e; reflexivity].
  destruct (read_language args) as [language|e];
    [|left; exists e; reflexivity].
  right. eexists. split.
  - apply (bind_ret_pair (runWebSearch env _) Ok w).
  - cbn. split; [apply resolveSearchCount_range|].
    split; [apply resolveTimeoutSeconds_default_range|].
    split; [apply resolveCacheTtlMs_default_range|].
    split; [eexists; reflexivity | apply or_undefined_nonempty].
Qed.

Example execute_eager :
  exists p w',
    execute (Some odd_config) all_unreachable eager_args (start_world 0)
    = (Ok p, w')
    /\ entries (SEARCH_CACHE w')
         !! cacheKeyOf all_unreachable
              {| param_query := js "test"; param_count := 10;
                 param_timeoutSeconds := 120; param_cacheTtlMs := 60000;
                 param_language := None; param_fetchContent := Some true |}
       = Some (mkEntry p (now w')).
Proof. eexists _, _. split; vm_compute; reflexivity. Qed.

(** X22. The tool throws, issuing no request and leaving the cache alone,
    when the query is missing, and when the count is a number that is
    not an integer: a fractional count is refused, not rounded. *)
Theorem execute_rejects (search : option SearchConfig) (env : Env)
    (args : gmap jsstring JsValue) (w : World) :
  (property args (js "query") = VUndefined
   \/ property args (js "query") = VNull ->
   execute search env args w
   = (Throw (Error_ (js "Missing required parameter: query")), w))
  /\ (forall q n,
        property args (js "query") = VString q ->
        property args (js "count") = VNumber n ->
        isInteger n = false ->
        execute search env args w
        = (Throw (Error_ (js "Parameter count must be an integer")), w)).
Proof.
  split.
  - intros H. unfold execute, readStringParam.
    destruct H as [-> | ->]; reflexivity.
  - intros q n Hq Hn Hint. unfold execute, readStringParam, readNumberParam.
    rewrite Hq, Hn, Hint. reflexivity.
Qed.

Lemma execute_rejects_witness :
  execute None all_unreachable fractional_args (start_world 0)
  = (Throw (Error_ (js "Parameter count must be an integer")), start_world 0)
  /\ execute None all_unreachable ∅ (start_world 0)
     = (Throw (Error_ (js "Missing required parameter: query")), start_world 0).
Proof.
  destruct (execute_rejects None all_unreachable fractional_args
              (start_world 0)) as [_ Hcount].
  destruct (execute_rejects None all_unreachable ∅ (start_world 0))
    as [Hquery _].
  split.
  - apply (Hcount (js "test") (Finite (5 # 2))); reflexivity.
  - apply Hquery. left. reflexivity.
Defined.

End ToolFacts.

Module SessionFacts.
Import JS Browser Scenarios MoreScenarios.

(** The identifier [createSession] files a session under. *)
Lemma createSession_outcome (eng : Engine) (svc : BrowserService)
    (sessionId : option jsstring) (b c p : nat) :
  isShuttingDown svc = false -> launch eng = Ok (b, c, p) ->
  let key := match sessionId with
             | Some k => if truthy k then k else fresh_id eng
             | None => fresh_id eng
             end in
  createSession eng svc sessionId
  = (Ok (mkSession b c p key),
     {| sessions := <[key := mkSession b c p key]> (sessions svc);
        isShuttingDown := false |}).
Proof.
  intros Hup Hlaunch. unfold createSession. rewrite Hup, Hlaunch. reflexivity.
Qed.

(** X23. A session that was created is found under its identifier, which is
    the one asked for unless that is missing or empty; the sessions under
    other identifiers are the same as before. *)
Theorem createSession_then_getSession (eng : Engine) (svc : BrowserService)
    (sessionId : option jsstring) (b c p : nat) (other : jsstring) :
  isShuttingDown svc = false -> launch eng = Ok (b, c, p) ->
  exists session svc',
    createSession eng svc sessionId = (Ok session, svc')
    /\ getSession svc' (id session) = Some session
    /\ (other <> id session -> getSession svc' other = getSession svc other)
    /\ (forall k, sessionId = Some k -> k <> [] -> id session = k)
    /\ (sessionId = None \/ sessionId = Some [] -> id session = fresh_id eng).
Proof.
  intros Hup Hlaunch.
  rewrite (createSession_outcome eng svc sessionId b c p Hup Hlaunch).
  eexists _, _. split; [reflexivity|]. unfold getSession. cbn.
  split; [apply lookup_insert_eq|].
  split; [intros Hne; apply lookup_insert_ne; congruence|].
  split.
  - intros k -> Hk. destruct k; [congruence | reflexivity].
  - intros [-> | ->]; reflexivity.
Qed.

Lemma createSession_then_getSession_witness :
  exists session svc',
    createSession (engine_up 2 "session_2_b") one_session (Some (js "mine"))
    = (Ok session, svc')
    /\ getSession svc' (js "mine") = Some session
    /\ getSession svc' (js "session_1_a") = getSession one_session (js "session_1_a").
Proof.
  destruct (createSession_then_getSession (engine_up 2 "session_2_b")
              one_session (Some (js "mine")) 2 2 2 (js "session_1_a")
              eq_refl eq_refl)
    as (session & svc' & Hrun & Hget & Hother & Hid & _).
  exists session, svc'. split; [exact Hrun|].
  assert (E : id session = js "mine")
    by (apply (Hid (js "mine")); [reflexivity | discriminate]).
  rewrite E in *. split; [exact Hget|]. apply Hother. discriminate.
Defined.

(** [createSession] throws and leaves the service as it is when the
    service is shutting down (the engine is then not even asked) and when
    the launch fails. *)
Theorem createSession_rejected (eng : Engine) (svc : BrowserService)
    (sessionId : option jsstring) :
  (isShuttingDown svc = true ->
   createSession eng svc sessionId
   = (Throw (Error_ (js "BrowserService is shutting down")), svc))
  /\ (forall e, isShuttingDown svc = false -> launch eng = Throw e ->
                createSession eng svc sessionId = (Throw e, svc)).
Proof.
  unfold createSession. split.
  - intros ->. reflexivity.
  - intros e -> ->. reflexivity.
Qed.

Lemma createSession_rejected_witness :
  createSession engine_down one_session None
  = (Throw (Error_ (js "Failed to launch the browser process")), one_session)
  /\ createSession (engine_up 1 "s") (mkService ∅ true) None
     = (Throw (Error_ (js "BrowserService is shutting down")), mkService ∅ true).
Proof.
  split.
  - apply (proj2 (createSession_rejected engine_down one_session None));
      reflexivity.
  - apply (proj1 (createSession_rejected (engine_up 1 "s")
                    (mkService ∅ true) None)).
    reflexivity.
Defined.

Lemma closeSession_state (eng : Engine) (svc : BrowserService) (k : jsstring) :
  closeSession eng svc (Some k)
  = (Ok tt, {| sessions := delete k (sessions svc);
               isShuttingDown := isShuttingDown svc |}).
Proof.
  unfold closeSession. cbn [get_session].
  destruct (sessions svc !! k) as [session|] eqn:E.
  - destruct (close_context eng _); [destruct (close_browser eng _)|];
      reflexivity.
  - rewrite (delete_id _ _ E). destruct svc; reflexivity.
Qed.

(** X24. [closeSession] removes the session under the given identifier and no
    other, whatever the engine answers to the two closes; the number of
    tracked sessions goes down by one when the identifier was tracked. *)
Theorem closeSession_removes_only (eng : Engine) (svc : BrowserService)
    (k other : jsstring) :
  let svc' := snd (closeSession eng svc (Some k)) in
  getSession svc' k = None
  /\ (other <> k -> getSession svc' other = getSession svc other)
  /\ isShuttingDown svc' = isShuttingDown svc
  /\ (is_Some (getSession svc k) ->
      size (sessions svc') = Nat.pred (size (sessions svc))).
Proof.
  cbn zeta. rewrite closeSession_state. unfold getSession. cbn.
  split; [apply lookup_delete_eq|].
  split; [intros Hne; apply lookup_delete_ne; congruence|].
  split; [reflexivity|]. apply map_size_delete_Some.
Qed.

Lemma closeSession_removes_only_witness :
  getSession (snd (closeSession engine_down two_sessions (Some (js "a"))))
    (js "b") = getSession two_sessions (js "b")
  /\ size (sessions (snd (closeSession engine_down two_sessions
                            (Some (js "a"))))) = 1%nat.
Proof.
  destruct (closeSession_removes_only engine_down two_sessions (js "a") (js "b"))
    as (_ & Hother & _ & Hsize).
  split.
  - apply Hother. discriminate.
  - rewrite Hsize; [vm_compute; reflexivity|]. vm_compute. eexists. reflexivity.
Defined.

(** X25. Creating a session under a fresh identifier and closing it again
    gives back the service as it was. *)
Theorem createSession_then_closeSession (eng eng' : Engine)
    (svc : BrowserService) (k : jsstring) (b c p : nat) :
  isShuttingDown svc = false -> launch eng = Ok (b, c, p) ->
  k <> [] -> getSession svc k = None ->
  closeSession eng' (snd (createSession eng svc (Some k))) (Some k)
  = (Ok tt, svc).
Proof.
  intros Hup Hlaunch Hk Hfresh.
  rewrite (createSession_outcome eng svc (Some k) b c p Hup Hlaunch).
  destruct k as [|x k]; [congruence|]. cbn [truthy snd].
  rewrite closeSession_state. cbn [sessions isShuttingDown].
  rewrite delete_insert_id by exact Hfresh.
  destruct svc as [m flag]. cbn in Hup. subst flag. reflexivity.
Qed.

Lemma createSession_then_closeSession_witness :
  closeSession engine_down
    (snd (createSession (engine_up 2 "s") one_session (Some (js "tab"))))
    (Some (js "tab"))
  = (Ok tt, one_session).
Proof.
  apply (createSession_then_closeSession (engine_up 2 "s") engine_down
           one_session (js "tab") 2 2 2).
  - reflexivity.
  - reflexivity.
  - discriminate.
  - vm_compute. reflexivity.
Defined.

(** X26. Creating a session under an identifier that is already tracked
    replaces the tracked session: the number of sessions stays the same
    and the identifier now leads to the new handles. *)
Theorem createSession_replaces (eng : Engine) (svc : BrowserService)
    (k : jsstring) (old : BrowserSession) (b c p : nat) :
  isShuttingDown svc = false -> launch eng = Ok (b, c, p) ->
  k <> [] -> getSession svc k = Some old ->
  let svc' := snd (createSession eng svc (Some k)) in
  getSession svc' k = Some (mkSession b c p k)
  /\ size (sessions svc') = size (sessions svc).
Proof.
  intros Hup Hlaunch Hk Hold.
  rewrite (createSession_outcome eng svc (Some k) b c p Hup Hlaunch).
  destruct k as [|x k]; [congruence|]. cbn. unfold getSession in *. cbn.
  split; [apply lookup_insert_eq|].
  apply map_size_insert_Some. rewrite Hold. eexists. reflexivity.
Qed.

Lemma createSession_replaces_witness :
  getSession (snd (createSession (engine_up 7 "s") two_sessions (Some (js "a"))))
    (js "a") = Some (mkSession 7 7 7 (js "a"))
  /\ size (sessions (snd (createSession (engine_up 7 "s") two_sessions
                            (Some (js "a"))))) = 2%nat.
Proof.
  destruct (createSession_replaces (engine_up 7 "s") two_sessions (js "a")
              (mkSession 1 1 1 (js "a")) 7 7 7) as [Hget Hsize].
  - reflexivity.
  - reflexivity.
  - discriminate.
  - vm_compute. reflexivity.
  - split; [exact Hget|]. rewrite Hsize. vm_compute. reflexivity.
Defined.

Lemma closing_keeps_flag (eng : Engine) (keys : list jsstring)
    (svc : BrowserService) :
  isShuttingDown
    (foldl (fun s k => snd (closeSession eng s (Some k))) svc keys)
  = isShuttingDown svc.
Proof.
  revert svc. induction keys as [|k keys IH]; intros svc; [reflexivity|].
  cbn [foldl]. rewrite IH, closeSession_state. reflexivity.
Qed.

(** X27. [shutdown] leaves a service that is shutting down and, unless it was
    already, tracks no session; from then on every [createSession] is
    refused, and a second [shutdown] changes nothing. *)
Theorem shutdown_final (eng eng' : Engine) (svc : BrowserService)
    (sessionId : option jsstring) :
  isShuttingDown (shutdown eng svc) = true
  /\ (isShuttingDown svc = false -> sessions (shutdown eng svc) = ∅)
  /\ shutdown eng' (shutdown eng svc) = shutdown eng svc
  /\ createSession eng' (shutdown eng svc) sessionId
     = (Throw (Error_ (js "BrowserService is shutting down")),
        shutdown eng svc).
Proof.
  assert (Hflag : isShuttingDown (shutdown eng svc) = true).
  { unfold shutdown. destruct (isShuttingDown svc) eqn:E; [exact E|].
    cbn [isShuttingDown]. rewrite closing_keeps_flag. reflexivity. }
  split; [exact Hflag|]. split.
  - intros Hup. unfold shutdown. rewrite Hup. reflexivity.
  - split.
    + unfold shutdown at 1. rewrite Hflag. reflexivity.
    + unfold createSession. rewrite Hflag. reflexivity.
Qed.

Lemma shutdown_final_witness :
  isShuttingDown two_sessions = false
  /\ sessions (shutdown engine_down two_sessions) = ∅.
Proof.
  assert (H : isShuttingDown two_sessions = false) by reflexivity.
  split; [exact H|].
  exact (proj1 (proj2 (shutdown_final engine_down engine_down two_sessions None)) H).
Defined.

End SessionFacts.

Module DispatchFacts.
Import JS Browser Gateway Scenarios MoreScenarios.


(** With the browser disabled, each of the four [browser.*] requests is
    answered by the error [Browser service is disabled] and the gateway
    stays without a browser service. *)
Theorem browser_disabled (eng : Engine) (outbox : list Reply)
    (message : GatewayMessage) :
  type message = js "browser.create" \/ type message = js "browser.navigate"
  \/ type message = js "browser.content" \/ type message = js "browser.close" ->
  handleWebSocketMessage eng (mkGateway None outbox) message
  = mkGateway None
      (outbox ++ [mkReply (js "error") (msg_id message) None
                    (Some (js "Browser service is disabled"))]).
Proof.
  intros H. unfold handleWebSocketMessage.
  destruct H as [-> | [-> | [-> | ->]]]; reflexivity.
Qed.

Lemma browser_disabled_witness :
  handleWebSocketMessage engine_down (mkGateway None [])
    (mkMessage (js "browser.navigate") (Some (js "3")) None)
  = mkGateway None
      [mkReply (js "error") (Some (js "3")) None
         (Some (js "Browser service is disabled"))].
Proof.
  apply (browser_disabled engine_down []
           (mkMessage (js "browser.navigate") (Some (js "3")) None)).
  right. left. reflexivity.
Defined.

(** A message of any other type than the five that are handled is
    answered by an error naming the type, and nothing else changes. *)
Theorem unknown_message_type (eng : Engine) (gw : GatewayServer)
    (message : GatewayMessage) :
  type message <> js "ping" ->
  type message <> js "browser.create" ->
  type message <> js "browser.navigate" ->
  type message <> js "browser.content" ->
  type message <> js "browser.close" ->
  handleWebSocketMessage eng gw message
  = mkGateway (browserService gw)
      (sent gw ++ [mkReply (js "error") (msg_id message) None
                     (Some (js "Unknown message type: " ++ type message))]).
Proof.
  intros H1 H2 H3 H4 H5. unfold handleWebSocketMessage.
  rewrite !bool_decide_eq_false_2 by assumption. reflexivity.
Qed.

Lemma unknown_message_type_witness :
  handleWebSocketMessage engine_down (mkGateway None [])
    (mkMessage (js "browser.screenshot") (Some (js "4")) None)
  = mkGateway None
      [mkReply (js "error") (Some (js "4")) None
         (Some (js "Unknown message type: browser.screenshot"))].
Proof.
  apply (unknown_message_type engine_down (mkGateway None [])
           (mkMessage (js "browser.screenshot") (Some (js "4")) None));
    discriminate.
Defined.

(** [browser.navigate] and [browser.content] for a session that is not
    tracked are answered by the error [Error: Session not found: ]
    followed by the identifier asked for, and the service is left as it
    is; the engine is not consulted. *)
Theorem session_not_found_reply (eng : Engine) (svc : BrowserService)
    (outbox : list Reply) (message : GatewayMessage)
    (fields : RequestPayload) :
  type message = js "browser.navigate" \/ type message = js "browser.content" ->
  payload message = Some fields ->
  get_session svc (sessionId fields) = None ->
  handleWebSocketMessage eng (mkGateway (Some svc) outbox) message
  = mkGateway (Some svc)
      (outbox ++ [mkReply (js "error") (msg_id message) None
                    (Some (js "Error: Session not found: "
                             ++ show_id (sessionId fields)))]).
Proof.
  intros Htype Hfields Hunknown. unfold handleWebSocketMessage.
  destruct Htype as [-> | ->]; cbn; rewrite Hfields; cbn;
    unfold navigate, getTextContent; rewrite Hunknown; reflexivity.
Qed.

Lemma session_not_found_reply_witness :
  handleWebSocketMessage (engine_up 1 "s") (mkGateway (Some one_session) [])
    (mkMessage (js "browser.content") (Some (js "5"))
       (Some (mkRequestPayload (Some (js "gone")) None)))
  = mkGateway (Some one_session)
      [mkReply (js "error") (Some (js "5")) None
         (Some (js "Error: Session not found: gone"))].
Proof.
  apply (session_not_found_reply (engine_up 1 "s") one_session []
           (mkMessage (js "browser.content") (Some (js "5"))
              (Some (mkRequestPayload (Some (js "gone")) None)))
           (mkRequestPayload (Some (js "gone")) None)).
  - right. reflexivity.
  - reflexivity.
  - vm_compute. reflexivity.
Defined.

(** X29. [browser.create] on a service that is up and whose engine launches
    is answered by [browser.created] with the generated identifier, under
    which the service then tracks the session; when [createSession]
    throws, the answer is the error rendered as a string and the service
    is left as it is. *)
Theorem browser_create_reply (eng : Engine) (svc : BrowserService)
    (outbox : list Reply) (request_id : option jsstring)
    (fields : option RequestPayload) :
  let gw := handleWebSocketMessage eng (mkGateway (Some svc) outbox)
              (mkMessage (js "browser.create") request_id fields) in
  (forall b c p,
     isShuttingDown svc = false -> launch eng = Ok (b, c, p) ->
     sent gw = outbox ++ [mkReply (js "browser.created") request_id
                            (Some (SessionIdPayload (fresh_id eng))) None]
     /\ exists svc',
          browserService gw = Some svc'
          /\ getSession svc' (fresh_id eng)
             = Some (mkSession b c p (fresh_id eng)))
  /\ (forall e,
        fst (createSession eng svc None) = Throw e ->
        gw = mkGateway (Some svc)
               (outbox ++ [mkReply (js "error") request_id None
                             (Some (String_of_error e))])).
Proof.
  cbn zeta. unfold handleWebSocketMessage. cbn. split.
  - intros b c p Hup Hlaunch.
    rewrite (SessionFacts.createSession_outcome eng svc None b c p Hup Hlaunch).
    cbn. split; [reflexivity|]. eexists. split; [reflexivity|].
    unfold getSession. cbn. apply lookup_insert_eq.
  - intros e He. unfold createSession in *.
    destruct (isShuttingDown svc); cbn in *.
    + injection He as <-. reflexivity.
    + destruct (launch eng) as [[[b c] p]|e']; cbn in *; [discriminate|].
      injection He as <-. reflexivity.
Qed.

Lemma browser_create_reply_witness :
  sent (handleWebSocketMessage (engine_up 2 "session_2_b")
          (mkGateway (Some one_session) [])
          (mkMessage (js "browser.create") (Some (js "6")) None))
  = [mkReply (js "browser.created") (Some (js "6"))
       (Some (SessionIdPayload (js "session_2_b"))) None]
  /\ handleWebSocketMessage engine_down (mkGateway (Some one_session) [])
       (mkMessage (js "browser.create") (Some (js "6")) None)
     = mkGateway (Some one_session)
         [mkReply (js "error") (Some (js "6")) None
            (Some (js "Error: Failed to launch the browser process"))].
Proof.
  split.
  - destruct (browser_create_reply (engine_up 2 "session_2_b") one_session []
                (Some (js "6")) None) as [Hok _].
    destruct (Hok 2%nat 2%nat 2%nat eq_refl eq_refl) as [Hsent _].
    exact Hsent.
  - destruct (browser_create_reply engine_down one_session []
                (Some (js "6")) None) as [_ Hfail].
    apply (Hfail (Error_ (js "Failed to launch the browser process"))).
    reflexivity.
Defined.

End DispatchFacts.

Module LifecycleFacts.
Import JS Browser GatewayLifecycle Scenarios MoreScenarios.

(** [stop] on a running server releases everything it holds, shutting
    the browser service down on the way; [stop] on a server that is not
    running, in particular a second [stop], does nothing. *)
Theorem stop_releases (eng eng' : Engine) (srv : Server) :
  (isRunning srv = true ->
   snd (stop eng srv)
   = mkServer (config srv) false false None false
   /\ fst (stop eng srv) = (shutdown eng <$> service srv))
  /\ stop eng' (snd (stop eng srv)) = (None, snd (stop eng srv)).
Proof.
  unfold stop. split.
  - intros ->. cbn. split; [reflexivity|]. destruct (service srv); reflexivity.
  - destruct (isRunning srv) eqn:E; cbn; [reflexivity|]. rewrite E. reflexivity.
Qed.

Lemma stop_releases_witness :
  snd (stop engine_down
         (mkServer (mkConfig 18789 (js "127.0.0.1") None None) true true
            (Some two_sessions) true))
  = mkServer (mkConfig 18789 (js "127.0.0.1") None None) false false None false.
Proof.
  apply (proj1 (stop_releases engine_down engine_down
                  (mkServer (mkConfig 18789 (js "127.0.0.1") None None)
                     true true (Some two_sessions) true))).
  reflexivity.
Defined.



End LifecycleFacts.
